(** * HiIP [src/files.py]: the groups and contrasts readers

    A shallow embedding of [clean], [index], [groups] and [contrasts] of
    [src/files.py], and the properties of the parsing contract proved
    about them.

    Conventions of the embedding.
    - A Python [str] is a [string]; a character is a code point below 256
      (an [ascii]).  [str.strip], [str.lower], [str.split] and [re.split]
      are written out below with Python 3 semantics on that range.
    - A Python [int] is a [Z]; list subscripts follow Python (a negative
      subscript counts from the end, out of range is [IndexError]).
    - A [dict] is a [gmap]; a [list] is a [list].
    - [open(file, 'r')] on an existing text file gives its decoded text;
      iterating the handle yields the lines of the text after universal
      newline translation, each with its terminating line feed.
    - Writing to the error stream is explicit state passing over the
      stream's contents; an exception that leaves the function is the
      [Raised] outcome, [SystemExit] being process termination. *)

From Stdlib Require Import ZArith Ascii String.
From stdpp Require Import gmap strings list fin_maps.

Local Open Scope Z_scope.
#[local] Set Warnings "-clear-no-such-hyp".

(** ** Python string primitives *)

Module Py.

Definition chr (n : nat) : ascii := ascii_of_nat n.

Definition TAB : ascii := chr 9.
Definition LF : ascii := chr 10.
Definition CR : ascii := chr 13.
Definition DQUOTE : ascii := chr 34.
Definition SQUOTE : ascii := chr 39.
Definition COMMA : ascii := chr 44.
Definition SEMICOLON : ascii := chr 59.

Definition str (c : ascii) : string := String c EmptyString.

(** [str.isspace] of one character: the white space [str.strip()]
    removes (code points below 256). *)
Definition isspace (c : ascii) : bool :=
  let n := nat_of_ascii c in
  ((9 <=? n)%nat && (n <=? 13)%nat)
  || ((28 <=? n)%nat && (n <=? 32)%nat)
  || (n =? 133)%nat || (n =? 160)%nat.

(** [str.lower] of one character: A-Z, and the upper-case letters of
    the Latin-1 supplement (all of 192..222 but the multiplication sign). *)
Definition lower_char (c : ascii) : ascii :=
  let n := nat_of_ascii c in
  if ((65 <=? n)%nat && (n <=? 90)%nat)
     || ((192 <=? n)%nat && (n <=? 222)%nat && negb (n =? 215)%nat)
  then ascii_of_nat (n + 32) else c.

Fixpoint lower (s : string) : string :=
  match s with
  | EmptyString => EmptyString
  | String c s' => String (lower_char c) (lower s')
  end.

Fixpoint lstrip_by (p : ascii → bool) (s : string) : string :=
  match s with
  | EmptyString => EmptyString
  | String c s' => if p c then lstrip_by p s' else s
  end.

Fixpoint rstrip_by (p : ascii → bool) (s : string) : string :=
  match s with
  | EmptyString => EmptyString
  | String c s' =>
      match rstrip_by p s' with
      | EmptyString => if p c then EmptyString else str c
      | r => String c r
      end
  end.

(** [s.strip()] *)
Definition strip (s : string) : string :=
  rstrip_by isspace (lstrip_by isspace s).

Fixpoint char_in (c : ascii) (chars : string) : bool :=
  match chars with
  | EmptyString => false
  | String d chars' => if Ascii.eqb c d then true else char_in c chars'
  end.

(** [s.strip(chars)]: [chars] is a set of characters. *)
Definition strip_chars (s chars : string) : string :=
  rstrip_by (λ c, char_in c chars) (lstrip_by (λ c, char_in c chars) s).

(** The cells of [s.split(sep)] for a non-empty [sep]: [skip] counts the
    characters of a separator occurrence still to be passed over. *)
Fixpoint split_go (sep s : string) (skip : nat) : list string :=
  match s with
  | EmptyString => [EmptyString]
  | String c s' =>
      match skip with
      | S k => split_go sep s' k
      | O =>
          if String.prefix sep s
          then EmptyString :: split_go sep s' (String.length sep - 1)
          else match split_go sep s' 0 with
               | cell :: cells => String c cell :: cells
               | [] => [str c]
               end
      end
  end.

(** [s.split(sep)]: [None] is the [ValueError] of an empty separator. *)
Definition split (s sep : string) : option (list string) :=
  match sep with
  | EmptyString => None
  | _ => Some (split_go sep s 0)
  end.

(** [re.split(';|,', s)] *)
Fixpoint re_split_semicolon_comma (s : string) : list string :=
  match s with
  | EmptyString => [EmptyString]
  | String c s' =>
      if Ascii.eqb c SEMICOLON || Ascii.eqb c COMMA
      then EmptyString :: re_split_semicolon_comma s'
      else match re_split_semicolon_comma s' with
           | cell :: cells => String c cell :: cells
           | [] => [str c]
           end
  end.

(** [sep.join(l)] *)
Fixpoint join (sep : string) (l : list string) : string :=
  match l with
  | [] => EmptyString
  | [x] => x
  | x :: l' => x +:+ sep +:+ join sep l'
  end.

(** [l[i]]: [None] is [IndexError]. *)
Definition getitem {A} (l : list A) (i : Z) : option A :=
  if 0 <=? i then l !! Z.to_nat i
  else if - i <=? Z.of_nat (length l) then l !! (length l - Z.to_nat (- i))%nat
  else None.

(** [l.index(x)]: [None] is [ValueError]. *)
Fixpoint list_index (l : list string) (x : string) : option Z :=
  match l with
  | [] => None
  | y :: l' => if decide (y = x) then Some 0
               else (λ i, i + 1) <$> list_index l' x
  end.

(** Universal newlines: CR LF and a lone CR are read as LF. *)
Fixpoint universal_newlines (s : string) : string :=
  match s with
  | EmptyString => EmptyString
  | String c s' =>
      if Ascii.eqb c CR
      then match s' with
           | String d _ =>
               if Ascii.eqb d LF then universal_newlines s'
               else String LF (universal_newlines s')
           | EmptyString => str LF
           end
      else String c (universal_newlines s')
  end.

(** The lines a text handle yields, each keeping its line feed. *)
Fixpoint splitlines_keep (s : string) : list string :=
  match s with
  | EmptyString => []
  | String c s' =>
      if Ascii.eqb c LF then str c :: splitlines_keep s'
      else match splitlines_keep s' with
           | line :: lines => String c line :: lines
           | [] => [str c]
           end
  end.

End Py.

(** ** Files, diagnostics and outcomes *)

Record File := { path : string; text : string }.

(** [for line in open(file, 'r')] *)
Definition readlines (file : File) : list string :=
  Py.splitlines_keep (Py.universal_newlines (text file)).

(** A diagnostic written by [err] or [fatal]: one constructor per format
    template of the source, carrying the values interpolated into it (the
    colour codes of [Colors] and the fixed wording are not modelled). *)
Inductive message :=
  | EmptyFileError (file : string)
  | EmptyFileAdvice
  | MissingColumnNamesWarning (file : string)
  | AssumedColumnsNote
  | ColumnMissingWarning (lineno : Z) (linelist : list string)
  | InformationMissingWarning (lineno : Z) (linelist : list string)
  | MissingGroupWarning (file : string) (line_number : Z) (line : string)
  | SkippingLineNote
  | UndefinedGroupsError (file : string)
  | UndefinedGroupsList (joined : string).

Inductive exception := StopIteration | ValueError | KeyError | SystemExit.

Inductive outcome (A : Type) :=
  | Returned (a : A)
  | Raised (e : exception).
Arguments Returned {A} a.
Arguments Raised {A} e.

(** The contents of the error stream. *)
Definition stderr := list message.

Definition M (A : Type) : Type := stderr → outcome A * stderr.

#[export] Instance M_ret : MRet M := λ A a s, (Returned a, s).
#[export] Instance M_bind : MBind M := λ A B f m s,
  match m s with
  | (Returned a, s') => f a s'
  | (Raised e, s') => (Raised e, s')
  end.

Definition raise {A} (e : exception) : M A := λ s, (Raised e, s).

(** Modelled from the spec: [utils.err] is not in the sources; it is the
    diagnostics sink's non-fatal operation: it writes the message to the
    error stream and execution continues. *)
Definition err (msg : message) : M unit := λ s, (Returned (), s ++ [msg]).

(** Modelled from the spec: [utils.fatal] is not in the sources; it is the
    diagnostics sink's failing operation: it writes the message to the
    error stream and terminates the process, which no handler of
    [src/files.py] intercepts. *)
Definition fatal {A} (msg : message) : M A := λ s, (Raised SystemExit, s ++ [msg]).

(** ** [clean] *)

Definition default_remove : list string := [Py.str Py.DQUOTE; Py.str Py.SQUOTE].

Definition clean (s : string) (remove : list string) : string :=
  foldl Py.strip_chars s remove.

(** ** [index] *)

(** The header cells [index] computes from the first line. *)
Definition index_header (line delim : string) : option (list string) :=
  map (λ col, clean (Py.strip (Py.lower col)) default_remove)
    <$> Py.split (Py.strip line) delim.

(** The [try] block of [index]: [false] is the [ValueError] of
    [header.index], which leaves in [indices] the entries made so far. *)
Fixpoint index_lookup (header required : list string)
    (indices : gmap string Z) : gmap string Z * bool :=
  match required with
  | [] => (indices, true)
  | col :: required' =>
      let col := Py.lower col in
      match Py.list_index header col with
      | Some i => index_lookup header required' (<[col := i]> indices)
      | None => (indices, false)
      end
  end.

(** [for i in range(len(required)): indices[required[i]] = i], from [i]. *)
Fixpoint index_defaults (required : list string) (i : Z)
    (indices : gmap string Z) : gmap string Z :=
  match required with
  | [] => indices
  | col :: required' => index_defaults required' (i + 1) (<[col := i]> indices)
  end.

Definition default_delim : string := Py.str Py.TAB.
Definition default_required : list string := ["sample"; "group"]%string.

Definition index (file : File) (delim : string) (required : list string)
    : M (gmap string Z * bool) :=
  match readlines file with
  | [] => err (EmptyFileError (path file));; fatal EmptyFileAdvice
  | line :: _ =>
      match index_header line delim with
      | None => raise ValueError
      | Some header =>
          match index_lookup header required ∅ with
          | (indices, true) => mret (indices, true)
          | (indices, false) =>
              err (MissingColumnNamesWarning (path file));;
              err AssumedColumnsNote;;
              mret (index_defaults required 0 indices, false)
          end
      end
  end.


(** ** [groups] *)

(** The body of [for g in multiple_groups]. *)
Definition add_sample (sample : string) (groups : gmap string (list string))
    (g : string) : gmap string (list string) :=
  let groups :=
    match groups !! g with
    | None => <[g := []]> groups
    | Some _ => groups
    end in
  match groups !! g with
  | Some samples =>
      if decide (sample ∈ samples) then groups
      else <[g := samples ++ [sample]]> groups
  | None => groups
  end.

(** [[clean(g.strip()) for g in re.split(';|,', group)]] *)
Definition multiple_groups (group : string) : list string :=
  map (λ g, clean (Py.strip g) default_remove)
    (Py.re_split_semicolon_comma group).

(** The body of [for line in fh] in [groups], [lineno] already
    incremented; returning [groups] unchanged is [continue]. *)
Definition groups_row (delim : string) (s_index g_index : Z) (lineno : Z)
    (line : string) (groups : gmap string (list string))
    : M (gmap string (list string)) :=
  match Py.split line delim with
  | None => raise ValueError
  | Some cells =>
      let linelist := map Py.strip cells in
      match Py.getitem linelist s_index, Py.getitem linelist g_index with
      | Some cell, Some group =>
          let sample := clean cell default_remove in
          if bool_decide (sample = EmptyString) || bool_decide (group = EmptyString)
          then err (InformationMissingWarning lineno linelist);; mret groups
          else mret (foldl (add_sample sample) groups (multiple_groups group))
      | _, _ =>
          let filtered := filter (λ item, item ≠ EmptyString) linelist in
          match filtered with
          | [] => mret groups
          | _ :: _ => err (ColumnMissingWarning lineno linelist);; mret groups
          end
      end
  end.

Fixpoint groups_loop (delim : string) (s_index g_index : Z)
    (lines : list string) (lineno : Z) (groups : gmap string (list string))
    : M (gmap string (list string)) :=
  match lines with
  | [] => mret groups
  | line :: lines' =>
      let lineno := lineno + 1 in
      groups ← groups_row delim s_index g_index lineno line groups;
      groups_loop delim s_index g_index lines' lineno groups
  end.

(** [d[k]]: a missing key is [KeyError]. *)
Definition dict_get {A} (d : gmap string A) (k : string) : M A :=
  match d !! k with
  | Some v => mret v
  | None => raise KeyError
  end.

(** [next(fh)] followed by the rest of the handle. *)
Definition next_line (lines : list string) : M (string * list string) :=
  match lines with
  | [] => raise StopIteration
  | line :: lines' => mret (line, lines')
  end.

Definition groups (file : File) (delim : string)
    : M (gmap string (list string)) :=
  '(indices, header) ← index file default_delim default_required;
  s_index ← dict_get indices "sample"%string;
  g_index ← dict_get indices "group"%string;
  let fh := readlines file in
  if (header : bool)
  then '(_, fh) ← next_line fh;
       groups_loop delim s_index g_index fh 1 ∅
  else groups_loop delim s_index g_index fh 0 ∅.

(** ** [contrasts] *)

(** [for g in [g1, g2]: if g not in groups: errors.append(g)] *)
Definition check_defined (groups : list string) (errors : list string)
    (g : string) : list string :=
  if decide (g ∈ groups) then errors else errors ++ [g].

(** The body of [for line in fh] in [contrasts] on the pair
    ([errors], [comparsions]), [line_number] already incremented. *)
Definition contrasts_row (file : File) (groups : list string) (delim : string)
    (line_number : Z) (line : string)
    (st : list string * list (list string))
    : M (list string * list (list string)) :=
  let '(errors, comparsions) := st in
  match Py.split line delim with
  | None => raise ValueError
  | Some cells =>
      let linelist := map (λ l, clean (Py.strip l) default_remove) cells in
      match Py.getitem linelist 0, Py.getitem linelist 1 with
      | Some g1, Some g2 =>
          if bool_decide (g1 = EmptyString) || bool_decide (g2 = EmptyString)
          then mret (errors, comparsions)
          else
            let errors := foldl (check_defined groups) errors [g1; g2] in
            if decide ([g1; g2] ∈ comparsions)
            then mret (errors, comparsions)
            else mret (errors, comparsions ++ [[g1; g2]])
      | _, _ =>
          err (MissingGroupWarning (path file) line_number (Py.strip line));;
          err SkippingLineNote;;
          mret (errors, comparsions)
      end
  end.

Fixpoint contrasts_loop (file : File) (groups : list string) (delim : string)
    (lines : list string) (line_number : Z)
    (st : list string * list (list string))
    : M (list string * list (list string)) :=
  match lines with
  | [] => mret st
  | line :: lines' =>
      let line_number := line_number + 1 in
      st ← contrasts_row file groups delim line_number line st;
      contrasts_loop file groups delim lines' line_number st
  end.

Definition contrasts (file : File) (groups : list string) (delim : string)
    : M (list (list string)) :=
  '(errors, comparsions) ← contrasts_loop file groups delim (readlines file) 0 ([], []);
  match errors with
  | _ :: _ =>
      err (UndefinedGroupsError (path file));;
      fatal (UndefinedGroupsList (Py.join "," errors))
  | [] => mret comparsions
  end.

(** * Notions used to state the properties *)

(** What a computation does on an empty error stream. *)
Definition run {A} (m : M A) : outcome A * stderr := m [].

(** A computation is append-only when it never reads the error stream and
    only writes at its end; its outcome and the diagnostics it writes are
    then those of [run]. *)
Definition append_only {A} (m : M A) : Prop :=
  ∀ s, m s = ((run m).1, s ++ (run m).2).

(** [if x not in acc: acc.append(x)] *)
Definition append_new {A} `{EqDecision A} (acc : list A) (x : A) : list A :=
  if decide (x ∈ acc) then acc else acc ++ [x].

(** The elements of a list, each once, in the order in which they first
    occur: an element is kept where it first stands and dropped from the
    rest. *)
Fixpoint first_occurrences {A} `{EqDecision A} (l : list A) : list A :=
  match l with
  | [] => []
  | x :: l' => x :: filter (λ y, y ≠ x) (first_occurrences l')
  end.

(** An accepted row: its cleaned sample and its cleaned group tokens. *)
Definition groups_entry (delim : string) (s_index g_index : Z) (line : string)
    : option (string * list string) :=
  cells ← Py.split line delim;
  cell ← Py.getitem (map Py.strip cells) s_index;
  group ← Py.getitem (map Py.strip cells) g_index;
  let sample := clean cell default_remove in
  if bool_decide (sample = EmptyString) || bool_decide (group = EmptyString)
  then None else Some (sample, multiple_groups group).

Definition apply_entry (groups : gmap string (list string))
    (entry : string * list string) : gmap string (list string) :=
  foldl (add_sample entry.1) groups entry.2.

(** The samples the accepted rows list under group [g], in file order. *)
Definition samples_of (g : string) (entries : list (string * list string))
    : list string :=
  (filter (λ entry, g ∈ entry.2) entries).*1.

Definition header_warnings (file : File) : stderr :=
  [MissingColumnNamesWarning (path file); AssumedColumnsNote].

(** The sample column, the group column and the data lines of a file, as
    [index] reports them to [groups]. *)
Definition groups_input (file : File) : option (Z * Z * list string) :=
  match (run (index file default_delim default_required)).1 with
  | Returned (indices, header) =>
      s_index ← indices !! "sample"%string;
      g_index ← indices !! "group"%string;
      Some (s_index, g_index,
            if header : bool then tail (readlines file) else readlines file)
  | Raised _ => None
  end.

(** An accepted row: the cleaned left and right group names, both
    non-empty. *)
Definition contrasts_pair (delim : string) (line : string) : option (list string) :=
  cells ← Py.split line delim;
  let linelist := map (λ l, clean (Py.strip l) default_remove) cells in
  g1 ← Py.getitem linelist 0;
  g2 ← Py.getitem linelist 1;
  if bool_decide (g1 = EmptyString) || bool_decide (g2 = EmptyString)
  then None else Some [g1; g2].

(** The pairs of the accepted rows, in file order. *)
Definition contrasts_pairs (delim : string) (lines : list string)
    : list (list string) :=
  omap (contrasts_pair delim) lines.

(** The group names of accepted rows that are not known, in file order,
    left before right, once per reference. *)
Definition undefined_groups (groups : list string) (delim : string)
    (lines : list string) : list string :=
  filter (λ g, g ∉ groups) (concat (contrasts_pairs delim lines)).

(** The warnings [contrasts] writes for one line: a line with fewer than
    two cells is reported, every other line is silent. *)
Definition contrasts_row_warnings (file : File) (delim : string)
    (line_number : Z) (line : string) : stderr :=
  match Py.split line delim with
  | Some cells =>
      let linelist := map (λ l, clean (Py.strip l) default_remove) cells in
      match Py.getitem linelist 0, Py.getitem linelist 1 with
      | Some _, Some _ => []
      | _, _ => [MissingGroupWarning (path file) line_number (Py.strip line);
                 SkippingLineNote]
      end
  | None => []
  end.

(** The warnings of all the lines, numbered after [line_number]. *)
Fixpoint contrasts_warnings (file : File) (delim : string)
    (lines : list string) (line_number : Z) : stderr :=
  match lines with
  | [] => []
  | line :: lines' =>
      contrasts_row_warnings file delim (line_number + 1) line
      ++ contrasts_warnings file delim lines' (line_number + 1)
  end.

(** Example files are written as rows of cells: the cells of a row are
    joined with [delim] and every row ends with a line feed. *)
Definition table (delim : string) (rows : list (list string)) : string :=
  foldr (λ row text, (Py.join delim row +:+ Py.str Py.LF +:+ text)%string)
    EmptyString rows.

Definition tsv (name : string) (rows : list (list string)) : File :=
  {| path := name; text := table default_delim rows |}.

(** Every character of [s] satisfies [p]. *)
Fixpoint str_forall (p : ascii → bool) (s : string) : bool :=
  match s with
  | EmptyString => true
  | String c s' => p c && str_forall p s'
  end.

(** [c] is one of the characters [clean] may strip for [remove]. *)
Definition removable (remove : list string) (c : ascii) : bool :=
  existsb (Py.char_in c) remove.

(** [c] is a separator of [re.split(';|,', _)]. *)
Definition is_separator (c : ascii) : bool :=
  Ascii.eqb c Py.SEMICOLON || Ascii.eqb c Py.COMMA.

(** The warning [groups] writes for one data line, if any. *)
Definition groups_row_warnings (delim : string) (s_index g_index : Z)
    (lineno : Z) (line : string) : stderr :=
  match Py.split line delim with
  | None => []
  | Some cells =>
      let linelist := map Py.strip cells in
      match Py.getitem linelist s_index, Py.getitem linelist g_index with
      | Some cell, Some group =>
          if bool_decide (clean cell default_remove = EmptyString)
             || bool_decide (group = EmptyString)
          then [InformationMissingWarning lineno linelist] else []
      | _, _ =>
          match filter (λ item, item ≠ EmptyString) linelist with
          | [] => []
          | _ :: _ => [ColumnMissingWarning lineno linelist]
          end
      end
  end.

(** [c] is white space or a quote character. *)
Definition is_space_or_quote (c : ascii) : bool :=
  Py.isspace c || Ascii.eqb c Py.DQUOTE || Ascii.eqb c Py.SQUOTE.

(** A token cleaned of surrounding white space and quotes, in the words of
    the specification: all white space and quote characters are taken off
    both ends.  [groups] does not compute this; it is what its keys are
    compared with. *)
Definition cleaned_of_whitespace_and_quotes (s : string) : string :=
  Py.rstrip_by is_space_or_quote (Py.lstrip_by is_space_or_quote s).

(** [s] is not empty and its first character does not satisfy [p]. *)
Definition starts_clear (p : ascii → bool) (s : string) : bool :=
  match s with
  | EmptyString => false
  | String c _ => negb (p c)
  end.

(** [s] is not empty and its last character does not satisfy [p]. *)
Fixpoint ends_clear (p : ascii → bool) (s : string) : bool :=
  match s with
  | EmptyString => false
  | String c EmptyString => negb (p c)
  | String _ s' => ends_clear p s'
  end.

(** The tokens written one after the other with a separator character
    between each two: [t0 c0 t1 c1 ... tn]. *)
Fixpoint join_with (tokens : list string) (seps : list ascii) : string :=
  match tokens with
  | [] => EmptyString
  | token :: tokens' =>
      match seps with
      | [] => token
      | c :: seps' => token +:+ String c (join_with tokens' seps')
      end
  end.

(** The warnings of consecutive lines, the first one numbered
    [lineno + 1]: [row n line] is what line [line], numbered [n], adds. *)
Definition numbered_warnings (row : Z → string → stderr)
    (lines : list string) (lineno : Z) : stderr :=
  concat (imap (λ k line, row (lineno + Z.of_nat k + 1) line) lines).

(** * Properties *)

(** ** The error-stream monad *)

Lemma bind_unfold {A B} (m : M A) (f : A → M B) (s : stderr) :
  (m ≫= f) s =
  match m s with
  | (Returned a, s') => f a s'
  | (Raised e, s') => (Raised e, s')
  end.
Proof. reflexivity. Qed.

Lemma append_only_intro {A} (m : M A) r w :
  (∀ s, m s = (r, s ++ w)) → append_only m.
Proof.
  intros H s. unfold run. rewrite (H []), (H s). reflexivity.
Qed.

Lemma append_only_ret {A} (a : A) : append_only (mret a : M A).
Proof. apply (append_only_intro _ (Returned a) []). intros s. by rewrite app_nil_r. Qed.

Lemma append_only_raise {A} e : append_only (raise e : M A).
Proof. apply (append_only_intro _ (Raised e) []). intros s. by rewrite app_nil_r. Qed.

Lemma append_only_err msg : append_only (err msg).
Proof. by apply (append_only_intro _ (Returned ()) [msg]). Qed.

Lemma append_only_fatal {A} msg : append_only (fatal msg : M A).
Proof. by apply (append_only_intro _ (Raised SystemExit) [msg]). Qed.

Lemma append_only_bind {A B} (m : M A) (f : A → M B) :
  append_only m → (∀ a, append_only (f a)) → append_only (m ≫= f).
Proof.
  intros Hm Hf.
  destruct (run m) as [[a|e] w] eqn:Em.
  - apply (append_only_intro _ (run (f a)).1 (w ++ (run (f a)).2)).
    intros s. rewrite bind_unfold, Hm, Em. simpl.
    rewrite (Hf a). by rewrite app_assoc.
  - apply (append_only_intro _ (Raised e) w).
    intros s. rewrite bind_unfold, Hm, Em. reflexivity.
Qed.

(** Evaluate the monadic steps whose head is known. *)
Ltac run_M :=
  repeat first
    [ rewrite bind_unfold
    | progress unfold err, fatal, raise, mret, M_ret
    | progress cbn beta iota ];
  rewrite <- ?app_assoc, ?app_nil_r; cbn [app].

(** Close a decidable goal by evaluation. *)
Ltac by_compute :=
  match goal with
  | |- ?P => apply (bool_decide_unpack P); vm_compute; exact I
  end.

Create HintDb append_only.
#[export] Hint Resolve append_only_ret append_only_raise append_only_err
  append_only_fatal : append_only.

(** ** Strings and lists *)

Lemma split_nonempty_sep s sep :
  sep ≠ EmptyString → Py.split s sep = Some (Py.split_go sep s 0).
Proof. by destruct sep. Qed.

Lemma split_is_Some s sep :
  sep ≠ EmptyString ↔ is_Some (Py.split s sep).
Proof.
  destruct sep; simpl; split; intros H; done.
Qed.

Lemma default_delim_nonempty : default_delim ≠ EmptyString.
Proof. done. Qed.

Lemma list_index_None l x : Py.list_index l x = None ↔ x ∉ l.
Proof.
  induction l as [|y l IH]; simpl.
  - split; [intros _; apply not_elem_of_nil | done].
  - destruct (decide (y = x)) as [->|Hne].
    + split; [done | intros H; destruct H; left].
    + rewrite fmap_None, IH, not_elem_of_cons. split; [intros ?; split; congruence | intros [_ ?]; done].
Qed.

Lemma list_index_Some l x i :
  Py.list_index l x = Some i → 0 ≤ i ∧ l !! Z.to_nat i = Some x.
Proof.
  revert i. induction l as [|y l IH]; simpl; intros i H; [done|].
  destruct (decide (y = x)) as [->|Hne].
  - by inversion H.
  - apply fmap_Some in H as (j & Hj & ->).
    destruct (IH j Hj) as [Hj0 Hl]. split; [lia|].
    replace (Z.to_nat (j + 1)) with (S (Z.to_nat j)) by lia. done.
Qed.

Lemma list_index_is_Some l x : x ∈ l → is_Some (Py.list_index l x).
Proof.
  intros H. destruct (Py.list_index l x) eqn:E; [by eexists|].
  by apply list_index_None in E.
Qed.

Lemma getitem_nonneg {A} (l : list A) (i : Z) :
  0 ≤ i → Py.getitem l i = l !! Z.to_nat i.
Proof. intros H. unfold Py.getitem. by rewrite (Zle_imp_le_bool _ _ H). Qed.

Lemma universal_newlines_cons c s :
  Py.universal_newlines (String c s) ≠ EmptyString.
Proof.
  revert c. induction s as [|d s IH]; intros c.
  - simpl. by destruct (Ascii.eqb c Py.CR).
  - change (Py.universal_newlines (String c (String d s))) with
      (if Ascii.eqb c Py.CR
       then if Ascii.eqb d Py.LF then Py.universal_newlines (String d s)
            else String Py.LF (Py.universal_newlines (String d s))
       else String c (Py.universal_newlines (String d s))).
    destruct (Ascii.eqb c Py.CR); [|done].
    destruct (Ascii.eqb d Py.LF); [apply IH | done].
Qed.

Lemma universal_newlines_empty s :
  Py.universal_newlines s = EmptyString ↔ s = EmptyString.
Proof.
  destruct s as [|c s]; [done|]. split; [|done].
  intros H. by apply universal_newlines_cons in H.
Qed.

Lemma splitlines_keep_nil s :
  Py.splitlines_keep s = [] ↔ s = EmptyString.
Proof.
  destruct s as [|c s]; [done|]. simpl. split; [|done].
  destruct (Ascii.eqb c Py.LF); [done|].
  by destruct (Py.splitlines_keep s).
Qed.

(** A file yields no line exactly when its text is empty. *)
Lemma readlines_nil file : readlines file = [] ↔ text file = EmptyString.
Proof.
  unfold readlines. by rewrite splitlines_keep_nil, universal_newlines_empty.
Qed.

(** ** [index] *)

Lemma index_lookup_found header required indices :
  (index_lookup header required indices).2 = true
  ↔ ∀ col, col ∈ required → Py.lower col ∈ header.
Proof.
  revert indices. induction required as [|col required IH]; intros indices; simpl.
  - split; [intros _ col H; by apply elem_of_nil in H | done].
  - destruct (Py.list_index header (Py.lower col)) as [i|] eqn:E.
    + rewrite IH. split.
      * intros H c [Hc|Hc]%elem_of_cons; [|by apply H]. subst c.
        destruct (decide (Py.lower col ∈ header)) as [|Hn]; [done|].
        apply list_index_None in Hn. congruence.
      * intros H c Hc. apply H. by right.
    + simpl. split; [done|]. intros H.
      apply list_index_None in E. destruct E. apply H. by left.
Qed.

Lemma index_lookup_missing header required indices :
  (index_lookup header required indices).2 = false
  ↔ ∃ col, col ∈ required ∧ Py.lower col ∉ header.
Proof.
  rewrite <- not_true_iff_false, index_lookup_found, <- Forall_forall. split.
  - intros H. apply not_Forall_Exists in H; [|intros col; apply _].
    apply Exists_exists in H as (col & Hin & Hn). eauto.
  - intros (col & Hin & Hn) H. rewrite Forall_forall in H. by apply Hn, H.
Qed.

(** In the header-found case each lower-cased required name is bound to
    its first position in the header; other keys are untouched. *)
Lemma index_lookup_lookup header required indices indices' k :
  index_lookup header required indices = (indices', true) →
  indices' !! k =
    if decide (k ∈ Py.lower <$> required) then Py.list_index header k
    else indices !! k.
Proof.
  revert indices. induction required as [|col required IH]; intros indices.
  - intros [= <-]. case_decide as Hk; [by apply elem_of_nil in Hk | done].
  - cbn [index_lookup].
    destruct (Py.list_index header (Py.lower col)) as [i|] eqn:E; [|done].
    intros H. rewrite (IH _ H), fmap_cons.
    destruct (decide (k = Py.lower col)) as [->|Hne].
    + rewrite lookup_insert_eq, E.
      destruct (decide (Py.lower col ∈ Py.lower col :: (Py.lower <$> required)))
        as [_|Hn]; [by case_decide|].
      destruct Hn. by left.
    + rewrite lookup_insert_ne by done.
      destruct (decide (k ∈ Py.lower <$> required)) as [Hin|Hin];
        destruct (decide (k ∈ Py.lower col :: (Py.lower <$> required)))
          as [Hin'|Hin']; try done.
      * destruct Hin'. by right.
      * by apply elem_of_cons in Hin' as [?|?].
Qed.

Lemma index_lookup_dom header required indices indices' :
  index_lookup header required indices = (indices', true) →
  dom indices' = list_to_set (Py.lower <$> required) ∪ dom indices.
Proof.
  intros H. apply set_eq. intros k.
  rewrite elem_of_union, elem_of_list_to_set, !elem_of_dom.
  rewrite (index_lookup_lookup _ _ _ _ k H).
  case_decide as Hk; [|tauto]. split; [tauto|]. intros _.
  apply list_elem_of_fmap in Hk as (col & -> & Hcol).
  apply list_index_is_Some.
  assert ((index_lookup header required indices).2 = true) as Hf by by rewrite H.
  rewrite index_lookup_found in Hf. by apply Hf.
Qed.

Lemma index_defaults_lookup_other required i indices k :
  k ∉ required → index_defaults required i indices !! k = indices !! k.
Proof.
  revert i indices. induction required as [|col required IH]; intros i indices Hk; [done|].
  apply not_elem_of_cons in Hk as [Hne Hk]. simpl.
  rewrite IH by done. by rewrite lookup_insert_ne.
Qed.

(** The positional default binds a name to the last position it has in
    [required]; for a name listed once, that is its position. *)
Lemma index_defaults_lookup required i indices j k :
  required !! j = Some k → k ∉ drop (S j) required →
  index_defaults required i indices !! k = Some (i + Z.of_nat j).
Proof.
  revert i indices j. induction required as [|col required IH]; intros i indices j; [done|].
  destruct j as [|j]; simpl.
  - intros [= ->] Hk. rewrite drop_0 in Hk.
    rewrite index_defaults_lookup_other by done.
    rewrite lookup_insert_eq. f_equal. lia.
  - intros Hj Hk. rewrite (IH _ _ j) by done. f_equal. lia.
Qed.

Lemma index_defaults_dom required i indices :
  dom (index_defaults required i indices) = list_to_set required ∪ dom indices.
Proof.
  revert i indices. induction required as [|col required IH]; intros i indices; simpl.
  - set_solver.
  - rewrite IH, dom_insert_L. set_solver.
Qed.

Lemma index_defaults_nonneg required i indices k v :
  0 ≤ i → (∀ k v, indices !! k = Some v → 0 ≤ v) →
  index_defaults required i indices !! k = Some v → 0 ≤ v.
Proof.
  revert i indices. induction required as [|col required IH]; intros i indices Hi Hm; simpl.
  - apply Hm.
  - apply IH; [lia|]. intros k' v' [[_ <-]|[_ H]]%lookup_insert_Some; [lia | by eapply Hm].
Qed.

(** [index] on a file with a first line, as a function of that line. *)
Lemma index_first_line file delim required line rest s :
  readlines file = line :: rest →
  index file delim required s =
    match index_header line delim with
    | None => (Raised ValueError, s)
    | Some header =>
        match index_lookup header required ∅ with
        | (indices, true) => (Returned (indices, true), s)
        | (indices, false) =>
            (Returned (index_defaults required 0 indices, false),
             s ++ [MissingColumnNamesWarning (path file); AssumedColumnsNote])
        end
    end.
Proof.
  intros Hl. unfold index. rewrite Hl.
  destruct (index_header line delim) as [header|]; [|done].
  destruct (index_lookup header required ∅) as [indices [|]]; [done|].
  by run_M.
Qed.

Lemma index_empty file delim required s :
  readlines file = [] →
  index file delim required s =
    (Raised SystemExit, s ++ [EmptyFileError (path file); EmptyFileAdvice]).
Proof.
  intros Hl. unfold index. rewrite Hl. by run_M.
Qed.

Lemma index_header_is_Some line delim :
  delim ≠ EmptyString ↔ is_Some (index_header line delim).
Proof.
  unfold index_header. rewrite fmap_is_Some. apply split_is_Some.
Qed.

(** ** Lists without repetition, in order of first occurrence *)

Section first_occurrences.
Context {A : Type} `{EqDecision A}.
Implicit Types (l acc : list A) (x y : A).

Lemma elem_of_first_occurrences l x : x ∈ first_occurrences l ↔ x ∈ l.
Proof.
  induction l as [|y l IH]; [done|]. simpl.
  rewrite !elem_of_cons, list_elem_of_filter, IH.
  destruct (decide (x = y)); naive_solver.
Qed.

Lemma NoDup_first_occurrences l : NoDup (first_occurrences l).
Proof.
  induction l as [|y l IH]; simpl; constructor.
  - rewrite list_elem_of_filter. naive_solver.
  - by apply NoDup_filter.
Qed.

(** Reading further never reorders what was found: the result on a
    prefix is a prefix of the result. *)
Lemma first_occurrences_app l1 l2 :
  first_occurrences (l1 ++ l2)
  = first_occurrences l1 ++ filter (λ y, y ∉ l1) (first_occurrences l2).
Proof.
  induction l1 as [|x l1 IH]; simpl.
  - symmetry. induction (first_occurrences l2) as [|y l IHl]; [done|].
    rewrite filter_cons_True by apply not_elem_of_nil. by f_equal.
  - f_equal. rewrite IH, filter_app. f_equal.
    rewrite list_filter_filter. apply list_filter_iff.
    intros y. rewrite not_elem_of_cons. tauto.
Qed.

(** The accumulating loop computes the first occurrences. *)
Lemma foldl_append_new acc l :
  foldl append_new acc l
  = acc ++ filter (λ y, y ∉ acc) (first_occurrences l).
Proof.
  revert acc. induction l as [|x l IH]; intros acc; simpl.
  - by rewrite app_nil_r.
  - rewrite IH. unfold append_new. destruct (decide (x ∈ acc)) as [Hx|Hx].
    + rewrite filter_cons_False by tauto. f_equal.
      rewrite list_filter_filter. apply list_filter_iff.
      intros y. split; [|tauto]. intros Hy. split; [done|]. by intros ->.
    + rewrite filter_cons_True by done. rewrite <- app_assoc. simpl.
      do 2 f_equal. rewrite list_filter_filter. apply list_filter_iff.
      intros y. rewrite not_elem_of_app, list_elem_of_singleton. tauto.
Qed.

Lemma foldl_append_new_nil l :
  foldl append_new [] l = first_occurrences l.
Proof.
  rewrite foldl_append_new. simpl.
  induction (first_occurrences l) as [|y r IHr]; [done|].
  rewrite filter_cons_True by apply not_elem_of_nil. by f_equal.
Qed.

Lemma append_new_idemp acc x :
  append_new (append_new acc x) x = append_new acc x.
Proof.
  unfold append_new at 2 3. destruct (decide (x ∈ acc)) as [Hx|Hx].
  - unfold append_new. by rewrite decide_True.
  - unfold append_new. rewrite decide_True; [done|].
    apply elem_of_app. right. by left.
Qed.
End first_occurrences.

Example first_occurrences_ex :
  first_occurrences [3; 1; 3; 2; 1]%nat = [3; 1; 2]%nat.
Proof. reflexivity. Qed.

(** ** [groups]: the mapping built from the accepted rows *)

Lemma add_sample_lookup sample (groups : gmap string (list string)) g g' :
  add_sample sample groups g !! g' =
    if decide (g' = g)
    then Some (append_new (default [] (groups !! g)) sample)
    else groups !! g'.
Proof.
  unfold add_sample, append_new.
  destruct (groups !! g) as [samples|] eqn:Eg; simpl.
  - rewrite Eg. destruct (decide (sample ∈ samples)).
    + case_decide; by subst.
    + case_decide; subst; [by rewrite lookup_insert_eq | by rewrite lookup_insert_ne].
  - rewrite lookup_insert_eq.
    rewrite (decide_False (P := sample ∈ [])) by apply not_elem_of_nil.
    rewrite insert_insert_eq. simpl.
    case_decide; subst; [by rewrite lookup_insert_eq | by rewrite lookup_insert_ne].
Qed.

Lemma apply_entry_lookup groups sample gs g :
  apply_entry groups (sample, gs) !! g =
    if decide (g ∈ gs)
    then Some (append_new (default [] (groups !! g)) sample)
    else groups !! g.
Proof.
  unfold apply_entry. cbn [fst snd]. revert groups.
  induction gs as [|g0 gs IH]; intros groups; cbn [foldl].
  - case_decide as Hg; [by apply elem_of_nil in Hg | done].
  - rewrite IH, !add_sample_lookup.
    destruct (decide (g = g0)) as [->|Hne].
    + destruct (decide (g0 ∈ g0 :: gs)) as [_|Hn]; [|destruct Hn; by left].
      case_decide; [|done]. simpl. by rewrite append_new_idemp.
    + destruct (decide (g ∈ gs)) as [Hin|Hin];
        destruct (decide (g ∈ g0 :: gs)) as [Hin'|Hin']; try done.
      * destruct Hin'. by right.
      * by apply elem_of_cons in Hin' as [?|?].
Qed.

Lemma foldl_apply_entry_lookup groups entries g :
  foldl apply_entry groups entries !! g =
    match groups !! g, samples_of g entries with
    | None, [] => None
    | o, samples => Some (foldl append_new (default [] o) samples)
    end.
Proof.
  revert groups. induction entries as [|[sample gs] entries IH]; intros groups.
  - simpl. by destruct (groups !! g).
  - cbn [foldl]. rewrite IH, apply_entry_lookup. unfold samples_of.
    destruct (decide (g ∈ gs)) as [Hin|Hin].
    + rewrite filter_cons_True by done. simpl.
      by destruct (groups !! g).
    + by rewrite filter_cons_False by done.
Qed.

(** The mapping built from the empty one: a group is a key exactly when
    some accepted row lists it, and its samples are the first occurrences
    of the samples listed under it. *)
Lemma foldl_apply_entry_empty entries g :
  foldl apply_entry ∅ entries !! g =
    match samples_of g entries with
    | [] => None
    | samples => Some (first_occurrences samples)
    end.
Proof.
  rewrite foldl_apply_entry_lookup, lookup_empty.
  destruct (samples_of g entries) as [|sample samples]; [done|].
  f_equal. apply foldl_append_new_nil.
Qed.

Lemma elem_of_samples_of g entries sample :
  sample ∈ samples_of g entries
  ↔ ∃ gs, (sample, gs) ∈ entries ∧ g ∈ gs.
Proof.
  unfold samples_of. rewrite list_elem_of_fmap. split.
  - intros ([s gs] & -> & [Hg Hin]%list_elem_of_filter). eauto.
  - intros (gs & Hin & Hg). exists (sample, gs). split; [done|].
    by apply list_elem_of_filter.
Qed.

(** ** [groups]: rows and the loop *)

Lemma groups_row_empty_delim s_index g_index lineno line groups s :
  groups_row EmptyString s_index g_index lineno line groups s
  = (Raised ValueError, s).
Proof. reflexivity. Qed.

(** With a usable delimiter a row never raises: it returns the mapping,
    extended when the row is accepted and unchanged otherwise. *)
Lemma groups_row_returns delim s_index g_index lineno line groups s :
  delim ≠ EmptyString →
  ∃ w, groups_row delim s_index g_index lineno line groups s =
    (Returned (from_option (apply_entry groups) groups
                 (groups_entry delim s_index g_index line)), s ++ w).
Proof.
  intros Hd. unfold groups_row, groups_entry.
  rewrite (split_nonempty_sep _ _ Hd). simpl.
  destruct (Py.getitem _ s_index) as [cell|]; simpl.
  - destruct (Py.getitem _ g_index) as [group|]; simpl.
    + destruct (_ || _); simpl; run_M; eauto.
      exists []. by rewrite app_nil_r.
    + destruct (filter _ _); run_M; eauto. exists []. by rewrite app_nil_r.
  - destruct (filter _ _); run_M; eauto. exists []. by rewrite app_nil_r.
Qed.

Lemma groups_loop_returns delim s_index g_index lines lineno groups s :
  delim ≠ EmptyString →
  ∃ w, groups_loop delim s_index g_index lines lineno groups s =
    (Returned (foldl apply_entry groups
                 (omap (groups_entry delim s_index g_index) lines)), s ++ w).
Proof.
  intros Hd. revert lineno groups s.
  induction lines as [|line lines IH]; intros lineno groups s.
  - exists []. simpl. by rewrite app_nil_r.
  - cbn [groups_loop]. rewrite bind_unfold.
    destruct (groups_row_returns delim s_index g_index (lineno + 1) line groups s Hd)
      as [w ->].
    destruct (IH (lineno + 1)
      (from_option (apply_entry groups) groups (groups_entry delim s_index g_index line))
      (s ++ w)) as [w' ->].
    exists (w ++ w'). rewrite app_assoc. f_equal. f_equal.
    simpl. by destruct (groups_entry delim s_index g_index line).
Qed.

Lemma groups_loop_empty_delim s_index g_index lines lineno groups s :
  groups_loop EmptyString s_index g_index lines lineno groups s =
    match lines with
    | [] => (Returned groups, s)
    | _ :: _ => (Raised ValueError, s)
    end.
Proof. by destruct lines. Qed.

(** ** [groups]: the call to [index] *)

(** [index] as [groups] calls it, on a file with a first line. *)
Lemma index_default_first_line file line rest s :
  readlines file = line :: rest →
  ∃ header, index_header line default_delim = Some header ∧
    index file default_delim default_required s =
      match Py.list_index header "sample", Py.list_index header "group" with
      | Some si, Some gi =>
          (Returned (<["group"%string := gi]> (<["sample"%string := si]> ∅), true), s)
      | Some si, None =>
          (Returned (<["group"%string := 1]> (<["sample"%string := 0]>
                       (<["sample"%string := si]> ∅)), false),
           s ++ header_warnings file)
      | None, _ =>
          (Returned (<["group"%string := 1]> (<["sample"%string := 0]> ∅), false),
           s ++ header_warnings file)
      end.
Proof.
  intros Hl.
  destruct (proj1 (index_header_is_Some line default_delim) default_delim_nonempty)
    as [header Hh].
  exists header. split; [done|].
  rewrite (index_first_line _ _ _ _ _ _ Hl), Hh.
  unfold default_required. cbn [index_lookup].
  change (Py.lower "sample") with "sample"%string.
  change (Py.lower "group") with "group"%string.
  destruct (Py.list_index header "sample") as [si|]; [|done].
  by destruct (Py.list_index header "group") as [gi|].
Qed.

Lemma groups_input_first_line file line rest header :
  readlines file = line :: rest →
  index_header line default_delim = Some header →
  groups_input file =
    match Py.list_index header "sample", Py.list_index header "group" with
    | Some si, Some gi => Some (si, gi, rest)
    | _, _ => Some (0, 1, line :: rest)
    end.
Proof.
  intros Hl Hh. unfold groups_input, run.
  destruct (index_default_first_line file line rest [] Hl) as (header' & Hh' & ->).
  rewrite Hh in Hh'. injection Hh' as <-. rewrite Hl.
  destruct (Py.list_index header "sample") as [si|]; [|done].
  by destruct (Py.list_index header "group") as [gi|].
Qed.

(** [groups] on a file with a first line: the rows it loops over. *)
Lemma groups_first_line file delim line rest header s :
  readlines file = line :: rest →
  index_header line default_delim = Some header →
  groups file delim s =
    match Py.list_index header "sample", Py.list_index header "group" with
    | Some si, Some gi => groups_loop delim si gi rest 1 ∅ s
    | _, _ => groups_loop delim 0 1 (line :: rest) 0 ∅ (s ++ header_warnings file)
    end.
Proof.
  intros Hl Hh. unfold groups. rewrite bind_unfold.
  destruct (index_default_first_line file line rest s Hl) as (header' & Hh' & ->).
  rewrite Hh in Hh'. injection Hh' as <-. rewrite Hl.
  destruct (Py.list_index header "sample") as [si|];
    [destruct (Py.list_index header "group") as [gi|]|]; reflexivity.
Qed.

Lemma groups_empty file delim s :
  readlines file = [] →
  groups file delim s =
    (Raised SystemExit, s ++ [EmptyFileError (path file); EmptyFileAdvice]).
Proof.
  intros Hl. unfold groups. by rewrite bind_unfold, index_empty.
Qed.

Lemma groups_input_empty file : readlines file = [] → groups_input file = None.
Proof.
  intros Hl. unfold groups_input, run. by rewrite index_empty.
Qed.

(** [groups] in terms of its input: it loops over the data lines, after
    the diagnostics of [index]. *)
Lemma groups_as_loop file delim s si gi rows :
  groups_input file = Some (si, gi, rows) →
  ∃ lineno w,
    groups file delim s = groups_loop delim si gi rows lineno ∅ (s ++ w).
Proof.
  destruct (readlines file) as [|line rest] eqn:Hl.
  - by rewrite groups_input_empty.
  - destruct (proj1 (index_header_is_Some line default_delim) default_delim_nonempty)
      as [header Hh].
    rewrite (groups_input_first_line _ _ _ _ Hl Hh),
      (groups_first_line _ delim _ _ _ s Hl Hh).
    destruct (Py.list_index header "sample") as [si'|];
      [destruct (Py.list_index header "group") as [gi'|]|];
      intros [= <- <- <-]; eauto.
    exists 1, []. by rewrite app_nil_r.
Qed.

(** Whenever [groups] returns, the mapping is the one built from the
    accepted rows among the data lines. *)
Lemma groups_result file delim s m :
  (groups file delim s).1 = Returned m →
  ∃ si gi rows, groups_input file = Some (si, gi, rows)
    ∧ m = foldl apply_entry ∅ (omap (groups_entry delim si gi) rows).
Proof.
  destruct (groups_input file) as [[[si gi] rows]|] eqn:Hin.
  - destruct (groups_as_loop file delim s si gi rows Hin) as (lineno & w & ->).
    intros H. exists si, gi, rows. split; [done|].
    destruct (decide (delim = EmptyString)) as [->|Hd].
    + rewrite groups_loop_empty_delim in H. destruct rows; [|done].
      simpl in H. by injection H as <-.
    + destruct (groups_loop_returns delim si gi rows lineno ∅ (s ++ w) Hd) as [w' Hw].
      rewrite Hw in H. simpl in H. by injection H as <-.
  - destruct (readlines file) as [|line rest] eqn:Hl.
    + by rewrite groups_empty.
    + destruct (proj1 (index_header_is_Some line default_delim) default_delim_nonempty)
        as [header Hh].
      rewrite (groups_input_first_line _ _ _ _ Hl Hh) in Hin.
      by destruct (Py.list_index header "sample"), (Py.list_index header "group").
Qed.

(** ** [contrasts]: rows and the loop *)

Lemma foldl_check_defined groups errors l :
  foldl (check_defined groups) errors l = errors ++ filter (λ g, g ∉ groups) l.
Proof.
  revert errors. induction l as [|g l IH]; intros errors; simpl.
  - by rewrite app_nil_r.
  - rewrite IH. unfold check_defined. destruct (decide (g ∈ groups)) as [Hg|Hg].
    + by rewrite filter_cons_False by tauto.
    + rewrite filter_cons_True by done. by rewrite <- app_assoc.
Qed.

Lemma contrasts_pair_length delim line p :
  contrasts_pair delim line = Some p →
  ∃ g1 g2, p = [g1; g2] ∧ g1 ≠ EmptyString ∧ g2 ≠ EmptyString.
Proof.
  unfold contrasts_pair. intros H.
  destruct (Py.split line delim) as [cells|]; [|done]. simpl in H.
  destruct (Py.getitem _ 0) as [g1|]; [|done]. simpl in H.
  destruct (Py.getitem _ 1) as [g2|]; [|done]. simpl in H.
  destruct (bool_decide (g1 = EmptyString)) eqn:E1; [done|].
  destruct (bool_decide (g2 = EmptyString)) eqn:E2; [done|].
  apply bool_decide_eq_false in E1, E2. injection H as <-. eauto.
Qed.

Lemma contrasts_row_returns file groups delim line_number line errors comparsions s :
  delim ≠ EmptyString →
  contrasts_row file groups delim line_number line (errors, comparsions) s =
    (Returned
       match contrasts_pair delim line with
       | Some p => (errors ++ filter (λ g, g ∉ groups) p, append_new comparsions p)
       | None => (errors, comparsions)
       end, s ++ contrasts_row_warnings file delim line_number line).
Proof.
  intros Hd. unfold contrasts_row, contrasts_pair, contrasts_row_warnings.
  rewrite (split_nonempty_sep _ _ Hd). cbn [mbind option_bind].
  destruct (Py.getitem _ 0) as [g1|]; cbn [mbind option_bind].
  - destruct (Py.getitem _ 1) as [g2|]; cbn [mbind option_bind].
    + destruct (_ || _).
      * by run_M.
      * rewrite foldl_check_defined. unfold append_new.
        destruct (decide ([g1; g2] ∈ comparsions)); by run_M.
    + by run_M.
  - by run_M.
Qed.

Lemma contrasts_loop_returns file groups delim lines line_number errors comparsions s :
  delim ≠ EmptyString →
  contrasts_loop file groups delim lines line_number (errors, comparsions) s =
    (Returned (errors ++ undefined_groups groups delim lines,
               foldl append_new comparsions (contrasts_pairs delim lines)),
     s ++ contrasts_warnings file delim lines line_number).
Proof.
  intros Hd. revert line_number errors comparsions s.
  induction lines as [|line lines IH]; intros line_number errors comparsions s.
  - simpl. by rewrite !app_nil_r.
  - cbn [contrasts_loop contrasts_warnings]. rewrite bind_unfold.
    rewrite (contrasts_row_returns file groups delim (line_number + 1) line
               errors comparsions s Hd).
    unfold undefined_groups, contrasts_pairs. cbn [omap list_omap].
    destruct (contrasts_pair delim line) as [p|]; rewrite IH.
    + unfold undefined_groups, contrasts_pairs.
      cbn [concat foldl]. by rewrite filter_app, !app_assoc.
    + by rewrite app_assoc.
Qed.

Lemma contrasts_loop_empty_delim file groups lines line_number st s :
  contrasts_loop file groups EmptyString lines line_number st s =
    match lines with
    | [] => (Returned st, s)
    | _ :: _ => (Raised ValueError, s)
    end.
Proof. destruct lines; [done|]. by destruct st. Qed.

Lemma contrasts_pairs_empty_delim lines : contrasts_pairs EmptyString lines = [].
Proof. by induction lines. Qed.

(** [contrasts] evaluated: after the warnings of the skipped lines it
    either returns the first occurrences of the pairs, or reports the
    undefined groups and terminates. *)
Lemma contrasts_eval file groups delim s :
  delim ≠ EmptyString →
  contrasts file groups delim s =
    match undefined_groups groups delim (readlines file) with
    | [] => (Returned (first_occurrences (contrasts_pairs delim (readlines file))),
             s ++ contrasts_warnings file delim (readlines file) 0)
    | errors =>
        (Raised SystemExit,
         s ++ contrasts_warnings file delim (readlines file) 0
           ++ [UndefinedGroupsError (path file);
               UndefinedGroupsList (Py.join "," errors)])
    end.
Proof.
  intros Hd. unfold contrasts. rewrite bind_unfold.
  rewrite (contrasts_loop_returns file groups delim (readlines file) 0 [] [] s Hd).
  rewrite foldl_append_new_nil. cbn [app].
  by destruct (undefined_groups groups delim (readlines file)); run_M.
Qed.

Lemma contrasts_empty_delim file groups s :
  contrasts file groups EmptyString s =
    match readlines file with
    | [] => (Returned [], s)
    | _ :: _ => (Raised ValueError, s)
    end.
Proof.
  unfold contrasts. rewrite bind_unfold, contrasts_loop_empty_delim.
  by destruct (readlines file).
Qed.

(** ** Append-only: nothing depends on what the error stream holds *)

Ltac solve_append_only :=
  repeat first
    [ solve [auto with append_only]
    | apply append_only_bind; [|intros ?]
    | match goal with
      | |- append_only (match ?x with _ => _ end) => destruct x
      | |- append_only (if ?x then _ else _) => destruct x
      | |- append_only (let '(_, _) := ?x in _) => destruct x
      end ].

Lemma append_only_index file delim required :
  append_only (index file delim required).
Proof. unfold index. solve_append_only. Qed.

Lemma append_only_groups_row delim s_index g_index lineno line groups :
  append_only (groups_row delim s_index g_index lineno line groups).
Proof. unfold groups_row. cbn zeta. solve_append_only. Qed.

Lemma append_only_groups_loop delim s_index g_index lines lineno groups :
  append_only (groups_loop delim s_index g_index lines lineno groups).
Proof.
  revert lineno groups. induction lines as [|line lines IH]; intros lineno groups.
  - apply append_only_ret.
  - cbn [groups_loop]. apply append_only_bind; [apply append_only_groups_row|].
    intros groups'. apply IH.
Qed.

Lemma append_only_groups file delim : append_only (groups file delim).
Proof.
  unfold groups, dict_get, next_line.
  apply append_only_bind; [apply append_only_index|]. intros [indices header].
  solve_append_only; apply append_only_groups_loop.
Qed.

Lemma append_only_contrasts_row file groups delim line_number line st :
  append_only (contrasts_row file groups delim line_number line st).
Proof. unfold contrasts_row. destruct st. cbn zeta. solve_append_only. Qed.

Lemma append_only_contrasts_loop file groups delim lines line_number st :
  append_only (contrasts_loop file groups delim lines line_number st).
Proof.
  revert line_number st. induction lines as [|line lines IH]; intros line_number st.
  - apply append_only_ret.
  - cbn [contrasts_loop]. apply append_only_bind; [apply append_only_contrasts_row|].
    intros st'. apply IH.
Qed.

Lemma append_only_contrasts file groups delim :
  append_only (contrasts file groups delim).
Proof.
  unfold contrasts.
  apply append_only_bind; [apply append_only_contrasts_loop|]. intros [errors comparsions].
  solve_append_only.
Qed.

(** * The claims *)

(** C2. A file with zero lines makes [index], and so [groups], write the
    empty-file diagnostic and terminate the process: neither an index map
    nor a group mapping is returned.  A file with at least one line never
    takes that branch, and [index] depends on its first line only. *)
Theorem index_empty_file_is_fatal (file : File) (delim : string)
    (required : list string) (s : stderr) :
  (readlines file = [] →
     index file delim required s
       = (Raised SystemExit, s ++ [EmptyFileError (path file); EmptyFileAdvice])
     ∧ groups file delim s
       = (Raised SystemExit, s ++ [EmptyFileError (path file); EmptyFileAdvice]))
  ∧ (∀ line rest, readlines file = line :: rest →
       (index file delim required s).1 ≠ Raised SystemExit
       ∧ (∃ w, (index file delim required s).2 = s ++ w
               ∧ (EmptyFileError (path file) ∉ w) ∧ (EmptyFileAdvice ∉ w))
       ∧ ∀ file', path file' = path file →
           head (readlines file') = Some line →
           index file' delim required s = index file delim required s).
Proof.
  split.
  - intros Hl. by rewrite index_empty, groups_empty.
  - intros line rest Hl. rewrite (index_first_line _ _ _ _ _ _ Hl).
    split; [|split].
    + destruct (index_header line delim) as [header|]; [|done].
      by destruct (index_lookup header required ∅) as [indices [|]].
    + destruct (index_header line delim) as [header|].
      * destruct (index_lookup header required ∅) as [indices [|]]; simpl.
        -- exists []. rewrite app_nil_r. split; [done|].
           split; apply not_elem_of_nil.
        -- exists (header_warnings file). split; [done|].
           unfold header_warnings. rewrite !not_elem_of_cons.
           repeat split; try done; apply not_elem_of_nil.
      * exists []. simpl. rewrite app_nil_r. split; [done|].
        split; apply not_elem_of_nil.
    + intros file' Hp Hh.
      destruct (readlines file') as [|line' rest'] eqn:Hl'; [done|].
      injection Hh as ->.
      by rewrite (index_first_line _ _ _ _ _ _ Hl'), Hp.
Qed.

Lemma index_empty_file_is_fatal_witness :
  (index (tsv "groups.tsv" []) default_delim default_required []
     = (Raised SystemExit, [EmptyFileError "groups.tsv"; EmptyFileAdvice])
   ∧ groups (tsv "groups.tsv" []) default_delim []
     = (Raised SystemExit, [EmptyFileError "groups.tsv"; EmptyFileAdvice]))
  ∧ (index (tsv "groups.tsv" [["Sample"; "Group"]; ["S1"; "G1"]]%string)
       default_delim default_required []).1 ≠ Raised SystemExit.
Proof.
  split.
  - apply (index_empty_file_is_fatal (tsv "groups.tsv" []) default_delim
             default_required []).
    reflexivity.
  - eapply (index_empty_file_is_fatal
              (tsv "groups.tsv" [["Sample"; "Group"]; ["S1"; "G1"]]%string)
              default_delim default_required []).
    reflexivity.
Defined.

(** C3. On a non-empty file whose normalised first line lacks one of the
    (lower-cased) required names, [index] writes the warning, reports
    header-present = false and binds [required[i]] to [i]; [groups] then
    treats the first line as a data row with sample column 0 and group
    column 1, and skips the first line only when both names were found. *)
Theorem index_header_fallback (file : File) (delim : string)
    (required : list string) (line : string) (rest : list string) (s : stderr) :
  readlines file = line :: rest →
  (∀ header, index_header line delim = Some header →
     (∃ col, col ∈ required ∧ Py.lower col ∉ header) →
     ∃ indices,
       index file delim required s
         = (Returned (indices, false), s ++ header_warnings file)
       ∧ ∀ (i : nat) col, required !! i = Some col →
           col ∉ drop (S i) required → indices !! col = Some (Z.of_nat i))
  ∧ (∀ header, index_header line default_delim = Some header →
       ("sample"%string ∉ header ∨ "group"%string ∉ header →
          groups file delim s
            = groups_loop delim 0 1 (line :: rest) 0 ∅ (s ++ header_warnings file))
       ∧ ("sample"%string ∈ header → "group"%string ∈ header →
            ∃ si gi, Py.list_index header "sample" = Some si
              ∧ Py.list_index header "group" = Some gi
              ∧ groups file delim s = groups_loop delim si gi rest 1 ∅ s)).
Proof.
  intros Hl. split.
  - intros header Hh Hmiss.
    apply (index_lookup_missing header required ∅) in Hmiss.
    rewrite (index_first_line _ _ _ _ _ _ Hl), Hh.
    destruct (index_lookup header required ∅) as [indices found].
    simpl in Hmiss. subst found.
    exists (index_defaults required 0 indices). split; [done|].
    intros i col Hi Hlast. by rewrite (index_defaults_lookup _ _ _ i col).
  - intros header Hh. rewrite (groups_first_line _ _ _ _ _ _ Hl Hh). split.
    + intros [Hn|Hn]; apply list_index_None in Hn; rewrite Hn; [done|].
      by destruct (Py.list_index header "sample").
    + intros [si Hs]%list_index_is_Some [gi Hg]%list_index_is_Some.
      exists si, gi. by rewrite Hs, Hg.
Qed.

Lemma index_header_fallback_witness :
  let file := tsv "groups.tsv" [["S1"; "GrpA"]; ["S2"; "GrpB"]]%string in
  ∃ indices,
    index file default_delim default_required []
      = (Returned (indices, false), header_warnings file)
    ∧ indices !! "sample"%string = Some 0
    ∧ indices !! "group"%string = Some 1.
Proof.
  intros file.
  destruct (index_header_fallback file default_delim default_required
              (Py.join default_delim ["S1"; "GrpA"]%string +:+ Py.str Py.LF)
              [Py.join default_delim ["S2"; "GrpB"]%string +:+ Py.str Py.LF]
              [] eq_refl) as [Hindex _].
  destruct (Hindex ["s1"; "grpa"]%string eq_refl) as (indices & Hi & Hpos).
  - exists "sample"%string. split; by_compute.
  - exists indices. split; [exact Hi|]. split.
    + apply (Hpos 0%nat); [reflexivity | by_compute].
    + apply (Hpos 1%nat); [reflexivity | by_compute].
Defined.

(** Whatever the [try] block of [index] leaves in the map was there
    before or is a lower-cased required name at a header position. *)
Lemma index_lookup_partial header required indices indices' found k v :
  index_lookup header required indices = (indices', found) →
  indices' !! k = Some v →
  indices !! k = Some v ∨ (k ∈ Py.lower <$> required ∧ 0 ≤ v).
Proof.
  revert indices. induction required as [|col required IH]; intros indices.
  - intros [= <- <-] Hk. by left.
  - cbn [index_lookup].
    destruct (Py.list_index header (Py.lower col)) as [i|] eqn:E.
    + intros H Hk. destruct (IH _ H Hk) as [Hins|[Hin Hv]].
      * apply lookup_insert_Some in Hins as [[<- <-]|[_ Hold]]; [|by left].
        right. split; [by left|]. by apply list_index_Some in E as [? _].
      * right. split; [by right | done].
    + intros [= <- <-] Hk. by left.
Qed.

(** What does hold of the keys and values of the index map: found in the
    header, the keys are the lower-cased required names; in the positional
    fallback they are the required names as the caller wrote them, next to
    the lower-cased ones bound before the lookup failed; every value is a
    non-negative integer. *)
Lemma index_keys_and_values file delim required s indices header_present :
  (index file delim required s).1 = Returned (indices, header_present) →
  (if header_present
   then dom indices = list_to_set (Py.lower <$> required)
   else list_to_set required ⊆ dom indices
        ∧ dom indices ⊆ list_to_set required ∪ list_to_set (Py.lower <$> required))
  ∧ ∀ k v, indices !! k = Some v → 0 ≤ v.
Proof.
  destruct (readlines file) as [|line rest] eqn:Hl.
  { by rewrite index_empty. }
  rewrite (index_first_line _ _ _ _ _ _ Hl).
  destruct (index_header line delim) as [header|]; [|done].
  destruct (index_lookup header required ∅) as [found_indices found] eqn:Hlookup.
  assert (∀ k v, found_indices !! k = Some v → k ∈ Py.lower <$> required ∧ 0 ≤ v)
    as Hpartial.
  { intros k v Hk.
    by destruct (index_lookup_partial _ _ _ _ _ _ _ Hlookup Hk) as [?|?]. }
  destruct found; intros [= <- <-].
  - split; [|intros k v Hk; by apply (Hpartial k v)].
    rewrite (index_lookup_dom _ _ _ _ Hlookup). set_solver.
  - split; [split|].
    + rewrite index_defaults_dom. set_solver.
    + rewrite index_defaults_dom. intros k [Hk|Hk]%elem_of_union; [set_solver|].
      apply elem_of_dom in Hk as [v Hv]. apply Hpartial in Hv as [Hv _].
      set_solver.
    + intros k v. apply index_defaults_nonneg; [done|].
      intros k' v' Hk'. by apply (Hpartial k' v').
Qed.

(** C8 fails in the positional fallback: for the required names
    [Sample] and [Group] and a file without header, the keys of the index
    map are [Sample] and [Group] as written, not their lower-case forms
    [sample] and [group], which the header-found path would have used. *)
Theorem index_fallback_keys_not_lowercased :
  let file := tsv "groups.tsv" [["S1"; "G1"]]%string in
  let required := ["Sample"; "Group"]%string in
  ∃ indices,
    index file default_delim required []
      = (Returned (indices, false), header_warnings file)
    ∧ dom indices = list_to_set required
    ∧ dom indices ≠ list_to_set (Py.lower <$> required)
    ∧ indices !! "sample"%string = None
    ∧ indices !! "Sample"%string = Some 0.
Proof.
  intros file required.
  exists (<["Group"%string := 1]> (<["Sample"%string := 0]> ∅)).
  split; [reflexivity|]. split; [|split; [|split]].
  - rewrite !dom_insert_L. set_solver.
  - rewrite !dom_insert_L. intros H.
    assert ("sample"%string ∈ ({["Group"%string]} ∪ ({["Sample"%string]} ∪ dom (∅ : gmap string Z)) : gset string)) as Hin.
    { rewrite H. set_solver. }
    set_solver.
  - by rewrite !lookup_insert_ne.
  - by rewrite lookup_insert_ne.
Qed.

(** C10. Whatever [delim] is passed to [groups], the column indexer is
    called with its defaults, the tab delimiter and the required names
    [sample] and [group]: [groups] fails as that call fails, and otherwise
    loops over the data lines, split on [delim], with the columns and the
    header flag that call returned.  So a comma-separated file read with
    [delim = ","] has its header line split on tab, found to lack the
    names, and treated as a data row. *)
Theorem groups_indexes_with_defaults (file : File) (delim : string) (s : stderr) :
  match index file default_delim default_required s with
  | (Raised e, s') => groups file delim s = (Raised e, s')
  | (Returned (indices, header), s') =>
      ∃ s_index g_index,
        indices !! "sample"%string = Some s_index
        ∧ indices !! "group"%string = Some g_index
        ∧ groups file delim s =
            groups_loop delim s_index g_index
              (if header then tail (readlines file) else readlines file)
              (if header then 1 else 0) ∅ s'
  end
  ∧ default_delim = Py.str Py.TAB
  ∧ default_required = ["sample"; "group"]%string
  ∧ let csv := {| path := "groups.csv";
                  text := table "," [["Sample"; "Group"]; ["S1"; "G1"]]%string |} in
    groups csv "," []
      = (Returned (<["G1"%string := ["S1"%string]]>
                     (<["Group"%string := ["Sample"%string]]> ∅)),
         header_warnings csv).
Proof.
  split; [|split; [done|split; [done|]]].
  - destruct (readlines file) as [|line rest] eqn:Hl.
    + by rewrite index_empty, groups_empty.
    + destruct (index_default_first_line file line rest s Hl) as (header & Hh & Hi).
      rewrite (groups_first_line _ delim _ _ _ s Hl Hh), Hi.
      destruct (Py.list_index header "sample") as [si|];
        [destruct (Py.list_index header "group") as [gi|]|].
      * exists si, gi. by rewrite lookup_insert_ne, !lookup_insert_eq.
      * exists 0, 1. by rewrite lookup_insert_ne, !lookup_insert_eq.
      * exists 0, 1. by rewrite lookup_insert_ne, !lookup_insert_eq.
  - intros csv. vm_compute. reflexivity.
Qed.

Lemma elem_of_concat {A} (x : A) (ls : list (list A)) :
  x ∈ concat ls ↔ ∃ l, x ∈ l ∧ l ∈ ls.
Proof.
  induction ls as [|l0 ls IH]; simpl.
  - split; [by intros ?%elem_of_nil | by intros (l & _ & ?%elem_of_nil)].
  - rewrite elem_of_app, IH. split.
    + intros [H|(l & Hx & Hl)]; [exists l0; split; [done | by left]|].
      exists l. split; [done | by right].
    + intros (l & Hx & [->|Hl]%elem_of_cons); [by left | right; eauto].
Qed.

Lemma elem_of_undefined_groups groups delim lines g :
  g ∈ undefined_groups groups delim lines
  ↔ (g ∉ groups)
    ∧ ∃ line p, line ∈ lines ∧ contrasts_pair delim line = Some p ∧ g ∈ p.
Proof.
  unfold undefined_groups, contrasts_pairs.
  rewrite list_elem_of_filter. split.
  - intros [Hg (p & Hgp & Hp)%elem_of_concat]. split; [done|].
    apply list_elem_of_omap in Hp as (line & Hline & Hpair). eauto.
  - intros [Hg (line & p & Hline & Hpair & Hgp)]. split; [done|].
    apply elem_of_concat. exists p. split; [done|].
    apply list_elem_of_omap. eauto.
Qed.

(** C1. If some accepted row of the contrasts file names a group that is
    not among the known groups, [contrasts] goes through the whole file,
    then writes the comma-joined list of every undefined group name it
    met and terminates the process: no comparison list is returned.  A
    list is returned only when no accepted row names an undefined group. *)
Theorem contrasts_undefined_group_is_fatal (file : File) (groups : list string)
    (delim : string) (s : stderr) :
  let undefined := undefined_groups groups delim (readlines file) in
  (∀ g, g ∈ undefined
        ↔ (g ∉ groups)
          ∧ ∃ line p, line ∈ readlines file
              ∧ contrasts_pair delim line = Some p ∧ g ∈ p)
  ∧ (∀ line p g, line ∈ readlines file → contrasts_pair delim line = Some p →
       g ∈ p → g ∉ groups →
       contrasts file groups delim s
       = (Raised SystemExit,
          s ++ contrasts_warnings file delim (readlines file) 0
            ++ [UndefinedGroupsError (path file);
                UndefinedGroupsList (Py.join "," undefined)]))
  ∧ (∀ comparsions, (contrasts file groups delim s).1 = Returned comparsions →
       undefined = []
       ∧ ∀ line p g, line ∈ readlines file → contrasts_pair delim line = Some p →
           g ∈ p → g ∈ groups).
Proof.
  intros undefined. split; [apply elem_of_undefined_groups|]. split.
  - intros line p g Hline Hpair Hgp Hg.
    assert (g ∈ undefined) as Hin.
    { apply elem_of_undefined_groups. split; [done|]. by exists line, p. }
    assert (delim ≠ EmptyString) as Hd by (by intros ->).
    rewrite (contrasts_eval file groups delim s Hd). fold undefined.
    destruct undefined; [by apply elem_of_nil in Hin | done].
  - intros comparsions Hret.
    assert (undefined = []) as Hnil.
    { destruct (decide (delim = EmptyString)) as [->|Hd].
      - unfold undefined, undefined_groups.
        by rewrite contrasts_pairs_empty_delim.
      - rewrite (contrasts_eval file groups delim s Hd) in Hret.
        fold undefined in Hret. by destruct undefined. }
    split; [done|]. intros line p g Hline Hpair Hgp.
    destruct (decide (g ∈ groups)) as [|Hg]; [done|].
    assert (g ∈ undefined) as Hin.
    { apply elem_of_undefined_groups. split; [done|]. by exists line, p. }
    rewrite Hnil in Hin. by apply elem_of_nil in Hin.
Qed.

Lemma contrasts_undefined_group_is_fatal_witness :
  let file := tsv "contrasts.tsv"
                [["G2"; "G1"]; ["G9"; "G1"]; ["G4"]; ["G4"; "G3"]]%string in
  contrasts file ["G1"; "G2"; "G3"; "G4"; "G5"]%string default_delim []
  = (Raised SystemExit,
     [MissingGroupWarning "contrasts.tsv" 3 "G4"; SkippingLineNote;
      UndefinedGroupsError "contrasts.tsv"; UndefinedGroupsList "G9"]).
Proof.
  intros file.
  destruct (contrasts_undefined_group_is_fatal file
              ["G1"; "G2"; "G3"; "G4"; "G5"]%string default_delim [])
    as (_ & Hfatal & _).
  apply (Hfatal (Py.join default_delim ["G9"; "G1"] +:+ Py.str Py.LF)%string
           ["G9"; "G1"]%string "G9"%string).
  - by_compute.
  - reflexivity.
  - by_compute.
  - by_compute.
Defined.

Lemma contrasts_returned file groups delim s comparsions :
  (contrasts file groups delim s).1 = Returned comparsions →
  comparsions = first_occurrences (contrasts_pairs delim (readlines file)).
Proof.
  intros Hret. destruct (decide (delim = EmptyString)) as [->|Hd].
  - rewrite contrasts_empty_delim in Hret.
    rewrite contrasts_pairs_empty_delim.
    destruct (readlines file); [|done]. by injection Hret as <-.
  - rewrite (contrasts_eval file groups delim s Hd) in Hret.
    destruct (undefined_groups groups delim (readlines file)); [|done].
    by injection Hret as <-.
Qed.

(** C4. When [contrasts] returns, the comparison list holds every pair of
    an accepted row exactly once, in the file order of first occurrence:
    it is the list of first occurrences of the rows' pairs, it has no
    repetition, what an initial part of the file contributes comes first,
    and [a; b] and [b; a] are two entries. *)
Theorem contrasts_pairs_once_in_file_order (file : File) (groups : list string)
    (delim : string) (s : stderr) (comparsions : list (list string)) :
  (contrasts file groups delim s).1 = Returned comparsions →
  let pairs := contrasts_pairs delim (readlines file) in
  comparsions = first_occurrences pairs
  ∧ NoDup comparsions
  ∧ (∀ p, p ∈ comparsions ↔ p ∈ pairs)
  ∧ (∀ lines1 lines2, readlines file = lines1 ++ lines2 →
       ∃ later, comparsions
                = first_occurrences (contrasts_pairs delim lines1) ++ later
         ∧ ∀ p, p ∈ later → p ∉ contrasts_pairs delim lines1)
  ∧ (∀ a b, [a; b] ∈ pairs → [b; a] ∈ pairs → a ≠ b →
       [a; b] ∈ comparsions ∧ [b; a] ∈ comparsions ∧ [a; b] ≠ [b; a]).
Proof.
  intros Hret pairs. apply contrasts_returned in Hret. fold pairs in Hret.
  subst comparsions. split; [done|]. split; [apply NoDup_first_occurrences|].
  split; [intros p; apply elem_of_first_occurrences|]. split.
  - intros lines1 lines2 Hl. unfold pairs, contrasts_pairs.
    rewrite Hl, omap_app, first_occurrences_app. eexists. split; [done|].
    intros p Hp. by apply list_elem_of_filter in Hp as [? _].
  - intros a b Hab Hba Hne. rewrite !elem_of_first_occurrences.
    split; [done|]. split; [done|]. intros [= ? _]. done.
Qed.

Lemma contrasts_pairs_once_in_file_order_witness :
  contrasts
    (tsv "contrasts.tsv" [["G2"; "G1"]; ["G1"; "G2"]; ["G2"; "G1"]; ["G4"; "G3"]]%string)
    ["G1"; "G2"; "G3"; "G4"]%string default_delim []
  = (Returned [["G2"; "G1"]; ["G1"; "G2"]; ["G4"; "G3"]]%string, [])
  ∧ NoDup [["G2"; "G1"]; ["G1"; "G2"]; ["G4"; "G3"]]%string.
Proof.
  split; [reflexivity|].
  eapply (contrasts_pairs_once_in_file_order
            (tsv "contrasts.tsv"
               [["G2"; "G1"]; ["G1"; "G2"]; ["G2"; "G1"]; ["G4"; "G3"]]%string)
            ["G1"; "G2"; "G3"; "G4"]%string default_delim []).
  reflexivity.
Defined.

Lemma groups_entry_accepted delim si gi line cells cell group :
  Py.split line delim = Some cells →
  Py.getitem (map Py.strip cells) si = Some cell →
  Py.getitem (map Py.strip cells) gi = Some group →
  clean cell default_remove ≠ EmptyString → group ≠ EmptyString →
  groups_entry delim si gi line
    = Some (clean cell default_remove, multiple_groups group).
Proof.
  intros Hs Hc Hg Hsample Hgroup. unfold groups_entry.
  rewrite Hs. cbn [mbind option_bind].
  rewrite Hc. cbn [mbind option_bind]. rewrite Hg. cbn [mbind option_bind].
  by rewrite !bool_decide_eq_false_2.
Qed.

(** Every sample of an accepted row is listed under each of its groups in
    the mapping built from the rows. *)
Lemma foldl_apply_entry_member entries sample gs g :
  (sample, gs) ∈ entries → g ∈ gs →
  ∃ samples, foldl apply_entry ∅ entries !! g = Some samples ∧ sample ∈ samples.
Proof.
  intros Hin Hg. rewrite foldl_apply_entry_empty.
  assert (sample ∈ samples_of g entries) as Hs.
  { apply elem_of_samples_of. eauto. }
  destruct (samples_of g entries) as [|x l] eqn:E.
  - by apply elem_of_nil in Hs.
  - eexists. split; [done|]. by apply elem_of_first_occurrences.
Qed.

(** C6. Membership accumulates idempotently and in order: in the mapping
    [groups] returns, the list of a group has no repeated sample, however
    many rows list the sample under the group, and it is the list of the
    samples the accepted rows put under the group, each at its first
    occurrence in the file. *)
Theorem groups_membership_once_in_file_order (file : File) (delim : string)
    (s : stderr) (m : gmap string (list string)) (g : string)
    (samples : list string) :
  (groups file delim s).1 = Returned m →
  m !! g = Some samples →
  NoDup samples
  ∧ ∃ si gi rows,
      groups_input file = Some (si, gi, rows)
      ∧ let entries := omap (groups_entry delim si gi) rows in
        samples = first_occurrences (samples_of g entries)
        ∧ (∀ sample, sample ∈ samples
             ↔ ∃ gs, (sample, gs) ∈ entries ∧ g ∈ gs)
        ∧ (∀ rows1 rows2, rows = rows1 ++ rows2 →
             ∃ later,
               samples
               = first_occurrences
                   (samples_of g (omap (groups_entry delim si gi) rows1))
                 ++ later).
Proof.
  intros Hret Hg.
  destruct (groups_result _ _ _ _ Hret) as (si & gi & rows & Hin & ->).
  rewrite foldl_apply_entry_empty in Hg.
  assert (samples
          = first_occurrences (samples_of g (omap (groups_entry delim si gi) rows)))
    as ->.
  { destruct (samples_of g _); [done|]. by injection Hg as <-. }
  split; [apply NoDup_first_occurrences|].
  exists si, gi, rows. split; [done|]. intros entries.
  split; [done|]. split.
  - intros sample. by rewrite elem_of_first_occurrences, elem_of_samples_of.
  - intros rows1 rows2 ->. unfold samples_of.
    rewrite omap_app, filter_app, fmap_app, first_occurrences_app. eauto.
Qed.

Lemma groups_membership_once_in_file_order_witness :
  let file := tsv "groups.tsv"
                [["Sample"; "Group"]; ["S2"; "GrpA"]; ["S1"; "GrpA"];
                 ["S2"; "GrpA"]]%string in
  (groups file default_delim []).1
    = Returned (<["GrpA"%string := ["S2"; "S1"]%string]> ∅)
  ∧ NoDup ["S2"; "S1"]%string.
Proof.
  intros file. split; [vm_compute; reflexivity|].
  eapply (groups_membership_once_in_file_order file default_delim []
            (<["GrpA"%string := ["S2"; "S1"]%string]> ∅) "GrpA"%string).
  - vm_compute. reflexivity.
  - reflexivity.
Defined.





Example groups_skips_malformed_lines_ex :
  groups (tsv "groups.tsv"
            [["Sample"; "Group"]; ["S1"; "G1"]; ["x"]; [];
             ["S2"; EmptyString]; ["S3"; "G1"]]%string) default_delim []
  = (Returned (<["G1"%string := ["S1"; "S3"]%string]> ∅),
     [ColumnMissingWarning 3 ["x"%string];
      InformationMissingWarning 5 ["S2"%string; EmptyString]]).
Proof. vm_compute. reflexivity. Qed.

(** C9. Parsing is deterministic.  [groups] and [contrasts] read nothing
    but their arguments and the file: whatever the error stream holds when
    a run starts (in particular what an earlier run left there), the run
    has the same outcome, the same mapping or comparison list, fatal
    termination or exception, and writes the same diagnostics. *)
Theorem parsing_is_deterministic (file : File) (delim : string)
    (known : list string) (s1 s2 : stderr) :
  ((groups file delim s1).1 = (groups file delim s2).1
   ∧ ∃ w, (groups file delim s1).2 = s1 ++ w
          ∧ (groups file delim s2).2 = s2 ++ w)
  ∧ ((contrasts file known delim s1).1 = (contrasts file known delim s2).1
     ∧ ∃ w, (contrasts file known delim s1).2 = s1 ++ w
            ∧ (contrasts file known delim s2).2 = s2 ++ w).
Proof.
  split.
  - rewrite (append_only_groups file delim s1), (append_only_groups file delim s2).
    split; [done|]. by exists (run (groups file delim)).2.
  - rewrite (append_only_contrasts file known delim s1),
      (append_only_contrasts file known delim s2).
    split; [done|]. by exists (run (contrasts file known delim)).2.
Qed.

(** * Further properties of [clean], [index], [groups] and [contrasts] *)

(** ** Strings *)

Lemma str_app_cons c (s1 s2 : string) :
  String c s1 +:+ s2 = String c (s1 +:+ s2).
Proof. reflexivity. Qed.

Lemma str_app_nil_l (s : string) : EmptyString +:+ s = s.
Proof. reflexivity. Qed.

Lemma str_app_nil_r (s : string) : s +:+ EmptyString = s.
Proof. induction s as [|c s IH]; [done | by rewrite str_app_cons, IH]. Qed.

Lemma str_app_assoc (s1 s2 s3 : string) :
  (s1 +:+ s2) +:+ s3 = s1 +:+ s2 +:+ s3.
Proof. induction s1 as [|c s1 IH]; [done | by rewrite !str_app_cons, IH]. Qed.

Lemma str_length_app (s1 s2 : string) :
  String.length (s1 +:+ s2) = (String.length s1 + String.length s2)%nat.
Proof.
  induction s1 as [|c s1 IH]; [done|]. rewrite str_app_cons. simpl. by rewrite IH.
Qed.

Lemma str_forall_app p (s1 s2 : string) :
  str_forall p (s1 +:+ s2) = str_forall p s1 && str_forall p s2.
Proof.
  induction s1 as [|c s1 IH]; [done|].
  rewrite str_app_cons. simpl. by rewrite IH, andb_assoc.
Qed.

Lemma str_forall_impl (p q : ascii → bool) (s : string) :
  (∀ c, p c = true → q c = true) → str_forall p s = true → str_forall q s = true.
Proof.
  intros Hpq. induction s as [|c s IH]; simpl; [done|].
  intros [Hc Hs]%andb_true_iff. by rewrite (Hpq c Hc), IH.
Qed.

(** [lstrip] and [rstrip] take characters satisfying [p] off one end. *)
Lemma lstrip_by_split p (s : string) :
  ∃ pre, s = pre +:+ Py.lstrip_by p s ∧ str_forall p pre = true.
Proof.
  induction s as [|c s (pre & Hs & Hpre)]; simpl.
  - by exists EmptyString.
  - destruct (p c) eqn:Hc.
    + exists (String c pre). rewrite str_app_cons, <- Hs. simpl. by rewrite Hc, Hpre.
    + by exists EmptyString.
Qed.

Lemma rstrip_by_split p (s : string) :
  ∃ post, s = Py.rstrip_by p s +:+ post ∧ str_forall p post = true.
Proof.
  induction s as [|c s (post & Hs & Hpost)]; simpl.
  - by exists EmptyString.
  - destruct (Py.rstrip_by p s) as [|d r] eqn:Hr.
    + rewrite str_app_nil_l in Hs. subst s. destruct (p c) eqn:Hc.
      * exists (String c post). simpl. by rewrite Hc, Hpost.
      * by exists post.
    + exists post. by rewrite str_app_cons, <- Hs.
Qed.

Lemma strip_chars_split (s chars : string) :
  ∃ pre post,
    s = pre +:+ Py.strip_chars s chars +:+ post
    ∧ str_forall (λ c, Py.char_in c chars) pre = true
    ∧ str_forall (λ c, Py.char_in c chars) post = true.
Proof.
  unfold Py.strip_chars.
  destruct (lstrip_by_split (λ c, Py.char_in c chars) s) as (pre & Hs & Hpre).
  destruct (rstrip_by_split (λ c, Py.char_in c chars)
              (Py.lstrip_by (λ c, Py.char_in c chars) s)) as (post & Hl & Hpost).
  exists pre, post. by rewrite <- Hl, <- Hs.
Qed.

Lemma strip_split (s : string) :
  ∃ pre post,
    s = pre +:+ Py.strip s +:+ post
    ∧ str_forall Py.isspace pre = true ∧ str_forall Py.isspace post = true.
Proof.
  unfold Py.strip.
  destruct (lstrip_by_split Py.isspace s) as (pre & Hs & Hpre).
  destruct (rstrip_by_split Py.isspace (Py.lstrip_by Py.isspace s))
    as (post & Hl & Hpost).
  exists pre, post. by rewrite <- Hl, <- Hs.
Qed.

(** ** [clean] *)

Lemma clean_cons (s chars : string) (remove : list string) :
  clean s (chars :: remove) = clean (Py.strip_chars s chars) remove.
Proof. reflexivity. Qed.

Lemma clean_split (s : string) (remove : list string) :
  ∃ pre post,
    s = pre +:+ clean s remove +:+ post
    ∧ str_forall (removable remove) pre = true
    ∧ str_forall (removable remove) post = true.
Proof.
  revert s. induction remove as [|chars remove IH]; intros s.
  - exists EmptyString, EmptyString. unfold clean. cbn [foldl].
    by rewrite str_app_nil_l, str_app_nil_r.
  - rewrite clean_cons.
    destruct (strip_chars_split s chars) as (pre1 & post1 & Hs & Hpre1 & Hpost1).
    destruct (IH (Py.strip_chars s chars)) as (pre2 & post2 & Hc & Hpre2 & Hpost2).
    assert (∀ c, Py.char_in c chars = true → removable (chars :: remove) c = true)
      as Hhead.
    { intros c Hc'. unfold removable. simpl. by rewrite Hc'. }
    assert (∀ c, removable remove c = true → removable (chars :: remove) c = true)
      as Htail.
    { intros c Hc'. unfold removable in *. simpl. rewrite Hc'. apply orb_true_r. }
    exists (pre1 +:+ pre2), (post2 +:+ post1). split; [|split].
    + rewrite Hs at 1. rewrite Hc at 1. by rewrite !str_app_assoc.
    + rewrite str_forall_app. apply andb_true_iff. split.
      * exact (str_forall_impl _ _ _ Hhead Hpre1).
      * exact (str_forall_impl _ _ _ Htail Hpre2).
    + rewrite str_forall_app. apply andb_true_iff. split.
      * exact (str_forall_impl _ _ _ Htail Hpost2).
      * exact (str_forall_impl _ _ _ Hhead Hpost1).
Qed.

Lemma clean_length (s : string) (remove : list string) :
  (String.length (clean s remove) ≤ String.length s)%nat.
Proof.
  destruct (clean_split s remove) as (pre & post & Hs & _).
  rewrite Hs at 2. rewrite !str_length_app. lia.
Qed.

(** X1. [clean] only strips: the result is the input without a prefix and
    a suffix, and every character it took off is one of the characters
    listed in [remove]; the interior of the string is never changed. *)
Theorem clean_only_strips_listed_characters (s : string) (remove : list string) :
  ∃ pre post,
    s = pre +:+ clean s remove +:+ post
    ∧ str_forall (removable remove) pre = true
    ∧ str_forall (removable remove) post = true
    ∧ (String.length (clean s remove) ≤ String.length s)%nat.
Proof.
  destruct (clean_split s remove) as (pre & post & Hs & Hpre & Hpost).
  exists pre, post. repeat split; try done. apply clean_length.
Qed.

Lemma lstrip_by_head p (s : string) c r :
  Py.lstrip_by p s = String c r → p c = false.
Proof.
  induction s as [|d s IH]; simpl; [done|].
  destruct (p d) eqn:Hd; [done|]. by intros [= <- _].
Qed.

Lemma rstrip_by_head p (s : string) c r :
  Py.rstrip_by p s = String c r → ∃ s', s = String c s'.
Proof.
  destruct s as [|d s]; simpl; [done|].
  destruct (Py.rstrip_by p s); [destruct (p d)|]; intros [= <- _]; eauto.
Qed.

Lemma rstrip_by_last p (s : string) r c :
  Py.rstrip_by p s = r +:+ Py.str c → p c = false.
Proof.
  revert r. induction s as [|d s IH]; intros r; simpl.
  - by destruct r.
  - destruct (Py.rstrip_by p s) as [|e t] eqn:Ht.
    + destruct (p d) eqn:Hd; [by destruct r|].
      destruct r as [|? r]; [by intros [= <-]|].
      rewrite str_app_cons. intros [= _ H]. by destruct r.
    + destruct r as [|? r]; [done|].
      rewrite str_app_cons. intros [= _ H]. by apply (IH r).
Qed.

(** X2. What [clean] returns neither begins nor ends with a character of
    the last entry of [remove]: with the default [remove], never with a
    single quote. *)
Theorem clean_result_ends (s : string) (remove : list string) (chars : string) :
  (∀ c r, clean s (remove ++ [chars]) = String c r → Py.char_in c chars = false)
  ∧ (∀ r c, clean s (remove ++ [chars]) = r +:+ Py.str c → Py.char_in c chars = false)
  ∧ (∀ r, clean s default_remove ≠ String Py.SQUOTE r)
  ∧ (∀ r, clean s default_remove ≠ r +:+ Py.str Py.SQUOTE).
Proof.
  assert (∀ t remove chars,
            (∀ c r, clean t (remove ++ [chars]) = String c r
               → Py.char_in c chars = false)
            ∧ (∀ r c, clean t (remove ++ [chars]) = r +:+ Py.str c
                 → Py.char_in c chars = false)) as Hgen.
  { intros t remove' chars'. unfold clean. rewrite foldl_app. cbn [foldl].
    generalize (foldl Py.strip_chars t remove') as u. intros u.
    unfold Py.strip_chars. split.
    - intros c r H.
      destruct (rstrip_by_head _ _ _ _ H) as [s' Hs'].
      by apply lstrip_by_head in Hs'.
    - intros r c H. by apply rstrip_by_last in H. }
  split; [apply Hgen|]. split; [apply Hgen|].
  destruct (Hgen s [Py.str Py.DQUOTE] (Py.str Py.SQUOTE)) as [Hhead Hlast].
  split; intros r H.
  - by apply Hhead in H.
  - by apply Hlast in H.
Qed.

Lemma lstrip_by_length p (s : string) :
  (String.length (Py.lstrip_by p s) ≤ String.length s)%nat.
Proof.
  destruct (lstrip_by_split p s) as (pre & Hs & _).
  rewrite Hs at 2. rewrite str_length_app. lia.
Qed.

Lemma rstrip_by_length p (s : string) :
  (String.length (Py.rstrip_by p s) ≤ String.length s)%nat.
Proof.
  destruct (rstrip_by_split p s) as (post & Hs & _).
  rewrite Hs at 2. rewrite str_length_app. lia.
Qed.

Lemma rstrip_by_app_last_false p (s : string) c :
  p c = false → Py.rstrip_by p (s +:+ Py.str c) = s +:+ Py.str c.
Proof.
  intros Hc. induction s as [|d s IH].
  - rewrite str_app_nil_l. simpl. by rewrite Hc.
  - rewrite str_app_cons. cbn [Py.rstrip_by]. rewrite IH.
    destruct s; by rewrite ?str_app_nil_l, ?str_app_cons.
Qed.

Lemma rstrip_by_app_last_true p (s : string) c :
  p c = true → Py.rstrip_by p (s +:+ Py.str c) = Py.rstrip_by p s.
Proof.
  intros Hc. induction s as [|d s IH].
  - rewrite str_app_nil_l. simpl. by rewrite Hc.
  - rewrite str_app_cons. cbn [Py.rstrip_by]. by rewrite IH.
Qed.

(** Stripping leaves a string alone whose first and last characters are
    not to be stripped. *)
Lemma strip_chars_neutral d (u : string) e chars :
  Py.char_in d chars = false → Py.char_in e chars = false →
  Py.strip_chars (String d (u +:+ Py.str e)) chars = String d (u +:+ Py.str e).
Proof.
  intros Hd He. unfold Py.strip_chars. cbn [Py.lstrip_by]. rewrite Hd.
  rewrite <- str_app_cons. by apply rstrip_by_app_last_false.
Qed.

(** Stripping takes one enclosing pair of characters off such a string. *)
Lemma strip_chars_peel c d (u : string) e chars :
  Py.char_in c chars = true →
  Py.char_in d chars = false → Py.char_in e chars = false →
  Py.strip_chars (String c (String d (u +:+ Py.str e) +:+ Py.str c)) chars
  = String d (u +:+ Py.str e).
Proof.
  intros Hc Hd He. unfold Py.strip_chars.
  rewrite str_app_cons. cbn [Py.lstrip_by]. rewrite Hc, Hd.
  rewrite <- str_app_cons, rstrip_by_app_last_true by done.
  rewrite <- str_app_cons. by apply rstrip_by_app_last_false.
Qed.

(** X3. [clean] strips double quotes before single quotes, once each: a
    value written with double quotes inside single quotes keeps its double
    quotes, and cleaning the result again removes them, so [clean] is not
    idempotent. *)
Theorem clean_keeps_inner_double_quotes (body : string) :
  let inner := String Py.DQUOTE (body +:+ Py.str Py.DQUOTE) in
  let s := String Py.SQUOTE (inner +:+ Py.str Py.SQUOTE) in
  clean s default_remove = inner
  ∧ clean (clean s default_remove) default_remove ≠ clean s default_remove.
Proof.
  intros inner s.
  assert (clean s default_remove = inner) as Hs.
  { unfold default_remove. rewrite !clean_cons. unfold s.
    rewrite (strip_chars_neutral Py.SQUOTE inner Py.SQUOTE) by done.
    unfold inner.
    rewrite (strip_chars_peel Py.SQUOTE Py.DQUOTE body Py.DQUOTE) by done.
    reflexivity. }
  split; [done|]. rewrite Hs. intros H.
  apply (f_equal String.length) in H. revert H.
  unfold default_remove. rewrite clean_cons.
  pose proof (clean_length (Py.strip_chars inner (Py.str Py.DQUOTE))
                [Py.str Py.SQUOTE]) as H1.
  assert (String.length (Py.strip_chars inner (Py.str Py.DQUOTE))
          < String.length inner)%nat as H2.
  { unfold Py.strip_chars, inner. cbn [Py.lstrip_by].
    change (Py.char_in Py.DQUOTE (Py.str Py.DQUOTE)) with true. cbn iota.
    eapply Nat.le_lt_trans; [apply rstrip_by_length|].
    eapply Nat.le_lt_trans; [apply lstrip_by_length|]. simpl. lia. }
  lia.
Qed.

(** ** [index] *)

Lemma list_index_first l x i :
  Py.list_index l x = Some i →
  ∃ n : nat, i = Z.of_nat n ∧ l !! n = Some x
    ∧ (n < length l)%nat ∧ ∀ j : nat, (j < n)%nat → l !! j ≠ Some x.
Proof.
  revert i. induction l as [|y l IH]; intros i; simpl; [done|].
  destruct (decide (y = x)) as [->|Hne].
  - intros [= <-]. exists 0%nat. repeat split; [simpl; lia | lia].
  - intros (k & Hk & ->)%fmap_Some.
    destruct (IH k Hk) as (n & -> & Hn & Hlen & Hfirst).
    exists (S n). split; [lia|]. split; [done|]. split; [simpl; lia|].
    intros [|j] Hj; simpl; [congruence|]. apply Hfirst. lia.
Qed.

(** X4. When every lower-cased required name is a cell of the normalised
    first line, [index] reports header-present = true and writes nothing;
    the keys are the lower-cased required names, and each is bound to the
    position of the first header cell equal to it, a position inside the
    header row. *)
Theorem index_header_found (file : File) (delim : string)
    (required : list string) (line : string) (rest : list string)
    (header : list string) (s : stderr) :
  readlines file = line :: rest →
  index_header line delim = Some header →
  (∀ col, col ∈ required → Py.lower col ∈ header) →
  ∃ indices,
    index file delim required s = (Returned (indices, true), s)
    ∧ dom indices = list_to_set (Py.lower <$> required)
    ∧ ∀ col, col ∈ required →
        ∃ n : nat, indices !! Py.lower col = Some (Z.of_nat n)
          ∧ header !! n = Some (Py.lower col)
          ∧ (n < length header)%nat
          ∧ ∀ j : nat, (j < n)%nat → header !! j ≠ Some (Py.lower col).
Proof.
  intros Hl Hh Hall.
  apply (index_lookup_found header required ∅) in Hall.
  rewrite (index_first_line _ _ _ _ _ _ Hl), Hh.
  destruct (index_lookup header required ∅) as [indices found] eqn:Hlookup.
  simpl in Hall. subst found. exists indices. split; [done|]. split.
  - rewrite (index_lookup_dom _ _ _ _ Hlookup). set_solver.
  - intros col Hcol.
    rewrite (index_lookup_lookup _ _ _ _ (Py.lower col) Hlookup).
    rewrite decide_True by (by apply list_elem_of_fmap_2).
    destruct (Py.list_index header (Py.lower col)) as [i|] eqn:Hi.
    + destruct (list_index_first _ _ _ Hi) as (n & -> & Hn & Hlen & Hfirst).
      by exists n.
    + apply list_index_None in Hi. destruct Hi.
      assert ((index_lookup header required ∅).2 = true) as Hf by by rewrite Hlookup.
      rewrite index_lookup_found in Hf. by apply Hf.
Qed.

Lemma index_header_found_witness :
  let file := tsv "groups.tsv" [["Group"; "'Sample'"; "Group"]; ["G1"; "S1"]]%string in
  ∃ indices,
    index file default_delim default_required [] = (Returned (indices, true), [])
    ∧ indices !! "sample"%string = Some 1
    ∧ indices !! "group"%string = Some 0.
Proof.
  intros file.
  destruct (index_header_found file default_delim default_required
              (Py.join default_delim ["Group"; "'Sample'"; "Group"]%string
               +:+ Py.str Py.LF)
              [Py.join default_delim ["G1"; "S1"]%string +:+ Py.str Py.LF]
              ["group"; "sample"; "group"]%string [] eq_refl eq_refl)
    as (indices & Hi & _ & Hpos).
  - intros col Hcol.
    apply elem_of_cons in Hcol as [->|Hcol]; [by_compute|].
    apply elem_of_cons in Hcol as [->|Hcol]; [by_compute|].
    by apply elem_of_nil in Hcol.
  - exists indices. split; [exact Hi|].
    destruct (Hpos "sample"%string) as (n & Hn & Hh & _); [by_compute|].
    destruct (Hpos "group"%string) as (m & Hm & _ & _ & Hfirst); [by_compute|].
    change (Py.lower "sample") with "sample"%string in *.
    change (Py.lower "group") with "group"%string in *.
    split.
    + rewrite Hn. f_equal.
      destruct n as [|[|[|n]]]; try done.
    + rewrite Hm. f_equal.
      destruct m as [|m]; [done|]. destruct (Hfirst 0%nat); [lia | done].
Defined.

(** X5. For required names written in lower case, as the default ones
    are, the keys of the index map are exactly the required names whether
    the header was found or not; in the fallback, a name listed once is
    bound to its position in [required]. *)
Theorem index_lowercase_required_keys (file : File) (delim : string)
    (required : list string) (s : stderr) (indices : gmap string Z)
    (header_present : bool) :
  (∀ col, col ∈ required → Py.lower col = col) →
  (index file delim required s).1 = Returned (indices, header_present) →
  dom indices = list_to_set required
  ∧ (header_present = false → NoDup required →
     ∀ (i : nat) col, required !! i = Some col → indices !! col = Some (Z.of_nat i)).
Proof.
  intros Hlow Hret.
  assert (Py.lower <$> required = required) as Hfmap.
  { clear Hret. induction required as [|col required IH]; [done|].
    rewrite fmap_cons, Hlow by left. f_equal. apply IH.
    intros c Hc. apply Hlow. by right. }
  split.
  - destruct (index_keys_and_values _ _ _ _ _ _ Hret) as [Hkeys _].
    rewrite Hfmap in Hkeys. destruct header_present; [done|]. set_solver.
  - intros -> Hnodup i col Hi.
    destruct (readlines file) as [|line rest] eqn:Hl.
    { by rewrite index_empty in Hret. }
    rewrite (index_first_line _ _ _ _ _ _ Hl) in Hret.
    destruct (index_header line delim) as [header|]; [|done].
    destruct (index_lookup header required ∅) as [partial [|]]; [done|].
    injection Hret as <-.
    rewrite (index_defaults_lookup _ _ _ i col Hi); [f_equal; lia|].
    intros Hin. apply list_elem_of_lookup in Hin as [j Hj].
    rewrite lookup_drop in Hj.
    pose proof (NoDup_lookup _ _ _ _ Hnodup Hi Hj). lia.
Qed.

Lemma index_lowercase_required_keys_witness :
  let file := tsv "groups.tsv" [["S1"; "G1"]]%string in
  ∃ indices,
    (index file default_delim default_required []).1 = Returned (indices, false)
    ∧ dom indices = list_to_set default_required.
Proof.
  intros file.
  exists (<["group"%string := 1]> (<["sample"%string := 0]> ∅)).
  split; [reflexivity|].
  eapply (index_lowercase_required_keys file default_delim default_required []).
  - intros col Hcol.
    apply elem_of_cons in Hcol as [->|Hcol]; [reflexivity|].
    apply elem_of_cons in Hcol as [->|Hcol]; [reflexivity|].
    by apply elem_of_nil in Hcol.
  - reflexivity.
Defined.

(** ** [groups]: outcomes, diagnostics and the shape of the mapping *)

Lemma numbered_warnings_cons row line lines lineno :
  numbered_warnings row (line :: lines) lineno
  = row (lineno + 1) line ++ numbered_warnings row lines (lineno + 1).
Proof.
  unfold numbered_warnings. rewrite imap_cons. cbn [concat]. f_equal.
  - f_equal. lia.
  - f_equal. apply imap_ext. intros k x _. simpl. f_equal. lia.
Qed.

Lemma numbered_warnings_lookup row lines lineno (k : nat) line msg :
  lines !! k = Some line → msg ∈ row (lineno + Z.of_nat k + 1) line →
  msg ∈ numbered_warnings row lines lineno.
Proof.
  intros Hk Hmsg. unfold numbered_warnings. apply elem_of_concat.
  exists (row (lineno + Z.of_nat k + 1) line). split; [done|].
  apply list_elem_of_lookup. exists k. by rewrite list_lookup_imap, Hk.
Qed.

Lemma elem_of_numbered_warnings row lines lineno msg :
  msg ∈ numbered_warnings row lines lineno →
  ∃ (k : nat) line, lines !! k = Some line
    ∧ msg ∈ row (lineno + Z.of_nat k + 1) line.
Proof.
  unfold numbered_warnings. intros (w & Hmsg & Hw)%elem_of_concat.
  apply list_elem_of_lookup in Hw as [k Hk].
  rewrite list_lookup_imap in Hk.
  destruct (lines !! k) as [line|] eqn:Hline; [|done].
  injection Hk as <-. eauto.
Qed.

Lemma groups_row_eval delim s_index g_index lineno line groups s :
  delim ≠ EmptyString →
  groups_row delim s_index g_index lineno line groups s =
    (Returned (from_option (apply_entry groups) groups
                 (groups_entry delim s_index g_index line)),
     s ++ groups_row_warnings delim s_index g_index lineno line).
Proof.
  intros Hd. unfold groups_row, groups_entry, groups_row_warnings.
  rewrite (split_nonempty_sep _ _ Hd). cbn [mbind option_bind].
  destruct (Py.getitem _ s_index) as [cell|]; cbn [mbind option_bind].
  - destruct (Py.getitem _ g_index) as [group|]; cbn [mbind option_bind].
    + destruct (_ || _); by run_M.
    + destruct (filter _ _); by run_M.
  - destruct (filter _ _); by run_M.
Qed.

Lemma groups_loop_eval delim s_index g_index lines lineno groups s :
  delim ≠ EmptyString →
  groups_loop delim s_index g_index lines lineno groups s =
    (Returned (foldl apply_entry groups
                 (omap (groups_entry delim s_index g_index) lines)),
     s ++ numbered_warnings (groups_row_warnings delim s_index g_index)
            lines lineno).
Proof.
  intros Hd. revert lineno groups s.
  induction lines as [|line lines IH]; intros lineno groups s.
  - simpl. by rewrite app_nil_r.
  - cbn [groups_loop]. rewrite bind_unfold, groups_row_eval by done.
    rewrite IH, numbered_warnings_cons, app_assoc. f_equal. f_equal.
    simpl. by destruct (groups_entry delim s_index g_index line).
Qed.

(** How [groups] reads a non-empty file: either both names are in the
    header and the data lines are the rest, or the fallback takes columns
    0 and 1 and every line is a data line. *)
Lemma groups_input_cases file si gi rows :
  groups_input file = Some (si, gi, rows) →
  ∃ line rest header,
    readlines file = line :: rest
    ∧ index_header line default_delim = Some header
    ∧ ((Py.list_index header "sample" = Some si
        ∧ Py.list_index header "group" = Some gi ∧ rows = rest)
       ∨ ((Py.list_index header "sample" = None
           ∨ Py.list_index header "group" = None)
          ∧ si = 0 ∧ gi = 1 ∧ rows = line :: rest)).
Proof.
  destruct (readlines file) as [|line rest] eqn:Hl.
  { by rewrite groups_input_empty. }
  destruct (proj1 (index_header_is_Some line default_delim) default_delim_nonempty)
    as [header Hh].
  rewrite (groups_input_first_line _ _ _ _ Hl Hh).
  intros H. exists line, rest, header. split; [done|]. split; [done|].
  destruct (Py.list_index header "sample") as [si'|];
    [destruct (Py.list_index header "group") as [gi'|]|];
    injection H as <- <- <-; eauto 10.
Qed.

Lemma groups_input_is_Some file :
  readlines file ≠ [] → is_Some (groups_input file).
Proof.
  destruct (readlines file) as [|line rest] eqn:Hl; [done|]. intros _.
  destruct (proj1 (index_header_is_Some line default_delim) default_delim_nonempty)
    as [header Hh].
  rewrite (groups_input_first_line _ _ _ _ Hl Hh).
  by destruct (Py.list_index header "sample"), (Py.list_index header "group").
Qed.

(** X6. [groups] ends in one of three ways.  It terminates the process
    exactly when the file has no line; it raises [ValueError] exactly when
    [delim] is empty and the file has a data line (the header is looked
    for with the tab delimiter, so an empty [delim] goes unnoticed on a
    file that is only a header); otherwise it returns a mapping.  It
    never raises [KeyError] or [StopIteration]. *)
Theorem groups_outcomes (file : File) (delim : string) (s : stderr) :
  ((groups file delim s).1 = Raised SystemExit ↔ readlines file = [])
  ∧ ((groups file delim s).1 = Raised ValueError
     ↔ delim = EmptyString
       ∧ ∃ si gi row rows, groups_input file = Some (si, gi, row :: rows))
  ∧ (groups file delim s).1 ≠ Raised KeyError
  ∧ (groups file delim s).1 ≠ Raised StopIteration
  ∧ ((∃ m, (groups file delim s).1 = Returned m)
     ↔ readlines file ≠ []
       ∧ (delim ≠ EmptyString
          ∨ ∃ si gi, groups_input file = Some (si, gi, []))).
Proof.
  destruct (readlines file) as [|line rest] eqn:Hl.
  { rewrite (groups_empty _ _ _ Hl), (groups_input_empty _ Hl). simpl.
    split; [done|]. split; [|split; [done|split; [done|]]].
    - split; [done|]. by intros (_ & ? & ? & ? & ? & ?).
    - split; [by intros [? ?] | by intros [? _]]. }
  assert (readlines file ≠ []) as Hne by by rewrite Hl.
  destruct (groups_input_is_Some file Hne) as [[[si gi] rows] Hin].
  destruct (groups_as_loop file delim s si gi rows Hin) as (lineno & w & Hg).
  rewrite Hg, Hin. clear Hg.
  destruct (decide (delim = EmptyString)) as [->|Hd].
  - rewrite groups_loop_empty_delim. destruct rows as [|row rows]; simpl.
    + split; [done|]. split; [|split; [done|split; [done|]]].
      * split; [done|]. by intros (_ & ? & ? & ? & ? & ?).
      * split; [|by eauto]. intros _. split; [done|]. right. eauto.
    + split; [done|]. split; [|split; [done|split; [done|]]].
      * split; [|done]. intros _. split; [done|]. eauto.
      * split; [by intros [? ?]|]. intros [_ [?|(? & ? & ?)]]; done.
  - rewrite groups_loop_eval by done. simpl.
    split; [done|]. split; [|split; [done|split; [done|]]].
    + split; [done|]. by intros [? _].
    + split; [|by eauto]. intros _. split; [done|]. by left.
Qed.

Lemma groups_entry_Some delim si gi line sample gs :
  groups_entry delim si gi line = Some (sample, gs) →
  sample ≠ EmptyString
  ∧ ∃ group, group ≠ EmptyString ∧ gs = multiple_groups group.
Proof.
  unfold groups_entry. intros H.
  destruct (Py.split line delim) as [cells|]; [|done]. cbn [mbind option_bind] in H.
  destruct (Py.getitem _ si) as [cell|]; [|done]. cbn [mbind option_bind] in H.
  destruct (Py.getitem _ gi) as [group|]; [|done]. cbn [mbind option_bind] in H.
  destruct (bool_decide (clean cell default_remove = EmptyString)) eqn:E1; [done|].
  destruct (bool_decide (group = EmptyString)) eqn:E2; [done|].
  apply bool_decide_eq_false in E1, E2. injection H as <- <-. eauto.
Qed.

Lemma re_split_no_separator (s t : string) :
  t ∈ Py.re_split_semicolon_comma s →
  str_forall (λ c, negb (is_separator c)) t = true.
Proof.
  revert t. induction s as [|c s IH]; intros t; simpl.
  - by intros ->%list_elem_of_singleton.
  - fold (is_separator c). destruct (is_separator c) eqn:Hc.
    + intros [->|Ht]%elem_of_cons; [done | by apply IH].
    + destruct (Py.re_split_semicolon_comma s) as [|cell cells].
      * intros ->%list_elem_of_singleton. simpl. by rewrite Hc.
      * intros [->|Ht]%elem_of_cons.
        -- simpl. rewrite Hc. simpl. apply IH. by left.
        -- apply IH. by right.
Qed.

Lemma str_forall_middle p (pre r post : string) :
  str_forall p (pre +:+ r +:+ post) = true → str_forall p r = true.
Proof.
  rewrite !str_forall_app. by intros [_ [? _]%andb_true_iff]%andb_true_iff.
Qed.

Lemma multiple_groups_no_separator group g :
  g ∈ multiple_groups group →
  str_forall (λ c, negb (is_separator c)) g = true.
Proof.
  unfold multiple_groups.
  intros (token & -> & Htoken)%(list_elem_of_fmap (λ g, clean (Py.strip g) default_remove)).
  apply re_split_no_separator in Htoken.
  destruct (strip_split token) as (pre1 & post1 & Ht & _).
  destruct (clean_split (Py.strip token) default_remove) as (pre2 & post2 & Hc & _).
  rewrite Ht in Htoken. apply str_forall_middle in Htoken.
  rewrite Hc in Htoken. by apply str_forall_middle in Htoken.
Qed.

(** X7. The mapping [groups] returns has no empty entry: every group has
    at least one sample, no sample is the empty string, and no group name
    contains a comma or a semicolon. *)
Theorem groups_mapping_shape (file : File) (delim : string) (s : stderr)
    (m : gmap string (list string)) (g : string) (samples : list string) :
  (groups file delim s).1 = Returned m →
  m !! g = Some samples →
  samples ≠ []
  ∧ (∀ sample, sample ∈ samples → sample ≠ EmptyString)
  ∧ str_forall (λ c, negb (is_separator c)) g = true.
Proof.
  intros Hret Hg.
  destruct (groups_result _ _ _ _ Hret) as (si & gi & rows & Hin & ->).
  rewrite foldl_apply_entry_empty in Hg.
  destruct (samples_of g (omap (groups_entry delim si gi) rows))
    as [|x l] eqn:Hs; [done|].
  injection Hg as <-.
  assert (∀ sample, sample ∈ x :: l →
            sample ≠ EmptyString
            ∧ str_forall (λ c, negb (is_separator c)) g = true) as Hall.
  { intros sample Hsample. rewrite <- Hs in Hsample.
    apply elem_of_samples_of in Hsample as (gs & Hentry & Hgs).
    apply list_elem_of_omap in Hentry as (line & _ & Hentry).
    apply groups_entry_Some in Hentry as (Hne & group & _ & ->).
    split; [done|]. by apply (multiple_groups_no_separator group). }
  split; [done|]. split.
  - intros sample Hsample.
    change (sample ∈ first_occurrences (x :: l)) in Hsample.
    apply (proj1 (elem_of_first_occurrences _ _)) in Hsample.
    by destruct (Hall sample Hsample).
  - destruct (Hall x) as [_ Hx]; [by left | exact Hx].
Qed.

Lemma groups_mapping_shape_witness :
  let file := tsv "groups.tsv"
                [["Sample"; "Group"]; ["S1"; "GrpA,GrpAB"]; ["S2"; "GrpA"]]%string in
  ["S1"; "S2"]%string ≠ []
  ∧ (∀ sample, sample ∈ ["S1"; "S2"]%string → sample ≠ EmptyString)
  ∧ str_forall (λ c, negb (is_separator c)) "GrpA" = true.
Proof.
  intros file.
  apply (groups_mapping_shape file default_delim []
           (<["GrpAB"%string := ["S1"%string]]>
              (<["GrpA"%string := ["S1"; "S2"]%string]> ∅))).
  - vm_compute. reflexivity.
  - reflexivity.
Defined.

(** X8. The warnings of [groups] carry the line numbers of the file: when
    the header is found the first line is skipped and the data lines are
    numbered from 2; in the fallback the header warnings come first and
    the lines are numbered from 1.  In both cases the warning for the
    line at position [k] of the file (from 0) is numbered [k + 1], and
    nothing else is written. *)
Theorem groups_warnings_carry_file_line_numbers (file : File) (delim : string)
    (s : stderr) (si gi : Z) (rows : list string) :
  delim ≠ EmptyString →
  groups_input file = Some (si, gi, rows) →
  ∃ skipped,
    readlines file = skipped ++ rows
    ∧ (length skipped ≤ 1)%nat
    ∧ (groups file delim s).2
      = s ++ (if decide (skipped = []) then header_warnings file else [])
          ++ numbered_warnings (groups_row_warnings delim si gi) rows
               (Z.of_nat (length skipped))
    ∧ (∀ (k : nat) line msg,
         readlines file !! k = Some line → (length skipped ≤ k)%nat →
         msg ∈ groups_row_warnings delim si gi (Z.of_nat k + 1) line →
         msg ∈ (groups file delim s).2)
    ∧ (∀ msg, msg ∈ (groups file delim s).2 →
         msg ∈ s ∨ msg ∈ header_warnings file
         ∨ ∃ (k : nat) line,
             readlines file !! k = Some line ∧ (length skipped ≤ k)%nat
             ∧ msg ∈ groups_row_warnings delim si gi (Z.of_nat k + 1) line).
Proof.
  intros Hd Hin.
  destruct (groups_input_cases _ _ _ _ Hin)
    as (line & rest & header & Hl & Hh & Hcase).
  assert (∃ skipped,
    readlines file = skipped ++ rows ∧ (length skipped ≤ 1)%nat
    ∧ (groups file delim s).2
      = s ++ (if decide (skipped = []) then header_warnings file else [])
          ++ numbered_warnings (groups_row_warnings delim si gi) rows
               (Z.of_nat (length skipped))) as (skipped & Hsplit & Hlen & Hlog).
  { rewrite (groups_first_line _ delim _ _ _ s Hl Hh).
    destruct Hcase as [(Hs & Hg & ->)|(Hnone & -> & -> & ->)].
    - exists [line]. rewrite Hs, Hg, groups_loop_eval by done.
      split; [done|]. split; [simpl; lia | done].
    - exists []. split; [done|]. split; [simpl; lia|].
      assert (match Py.list_index header "sample", Py.list_index header "group" with
              | Some si, Some gi => groups_loop delim si gi rest 1 ∅ s
              | _, _ => groups_loop delim 0 1 (line :: rest) 0 ∅
                          (s ++ header_warnings file)
              end = groups_loop delim 0 1 (line :: rest) 0 ∅
                      (s ++ header_warnings file)) as ->.
      { destruct Hnone as [-> | ->]; [done|].
        by destruct (Py.list_index header "sample"). }
      rewrite groups_loop_eval by done. simpl. by rewrite <- app_assoc. }
  exists skipped. split; [done|]. split; [done|]. split; [done|]. split.
  - intros k line' msg Hk Hle Hmsg. rewrite Hlog, !elem_of_app.
    right. right. rewrite Hsplit, lookup_app_r in Hk by done.
    apply (numbered_warnings_lookup _ _ _ (k - length skipped) line'); [done|].
    by replace (Z.of_nat (length skipped) + Z.of_nat (k - length skipped) + 1)
      with (Z.of_nat k + 1) by lia.
  - intros msg. rewrite Hlog, !elem_of_app. intros [Hs|[Hw|Hrows]]; [by left| |].
    + right. left. by destruct (decide (skipped = [])); [|apply elem_of_nil in Hw].
    + right. right.
      apply elem_of_numbered_warnings in Hrows as (k & line' & Hk & Hmsg).
      exists (length skipped + k)%nat, line'. split; [|split; [lia|]].
      * rewrite Hsplit, lookup_app_r by lia.
        by replace (length skipped + k - length skipped)%nat with k by lia.
      * by replace (Z.of_nat (length skipped + k) + 1)
          with (Z.of_nat (length skipped) + Z.of_nat k + 1) by lia.
Qed.

Lemma groups_warnings_carry_file_line_numbers_witness :
  let file := tsv "groups.tsv"
                [["Sample"; "Group"]; ["S1"; "G1"]; ["x"]; ["S2"; "G1"]]%string in
  ColumnMissingWarning 3 ["x"%string] ∈ (groups file default_delim []).2.
Proof.
  intros file.
  destruct (groups_warnings_carry_file_line_numbers file default_delim [] 0 1
              (tail (readlines file)))
    as (skipped & Hsplit & _ & _ & Hline & _).
  - discriminate.
  - reflexivity.
  - apply (Hline 2%nat ("x" +:+ Py.str Py.LF)%string).
    + reflexivity.
    + assert (length skipped = 1)%nat as ->; [|lia].
      apply (f_equal length) in Hsplit. rewrite length_app in Hsplit.
      change (length (readlines file)) with 4%nat in Hsplit.
      change (length (tail (readlines file))) with 3%nat in Hsplit. lia.
    + change (ColumnMissingWarning 3 ["x"%string]
              ∈ [ColumnMissingWarning 3 ["x"%string]]). by left.
Defined.

(** ** [contrasts]: outcomes, diagnostics and the shape of the list *)

Lemma undefined_groups_empty_delim groups lines :
  undefined_groups groups EmptyString lines = [].
Proof. unfold undefined_groups. by rewrite contrasts_pairs_empty_delim. Qed.

(** X9. [contrasts] ends in one of three ways.  It raises [ValueError]
    exactly when [delim] is empty and the file has a line; it terminates
    the process exactly when an accepted row names an undefined group;
    otherwise it returns.  It never raises [KeyError] or [StopIteration],
    and an empty file is no error: the empty list is returned and nothing
    is written. *)
Theorem contrasts_outcomes (file : File) (groups : list string)
    (delim : string) (s : stderr) :
  ((contrasts file groups delim s).1 = Raised ValueError
   ↔ delim = EmptyString ∧ readlines file ≠ [])
  ∧ ((contrasts file groups delim s).1 = Raised SystemExit
     ↔ undefined_groups groups delim (readlines file) ≠ [])
  ∧ (contrasts file groups delim s).1 ≠ Raised KeyError
  ∧ (contrasts file groups delim s).1 ≠ Raised StopIteration
  ∧ ((∃ comparsions, (contrasts file groups delim s).1 = Returned comparsions)
     ↔ undefined_groups groups delim (readlines file) = []
       ∧ (delim = EmptyString → readlines file = []))
  ∧ (readlines file = [] → contrasts file groups delim s = (Returned [], s)).
Proof.
  destruct (decide (delim = EmptyString)) as [->|Hd].
  - rewrite contrasts_empty_delim, undefined_groups_empty_delim.
    destruct (readlines file) as [|line rest]; simpl.
    + split; [split; [done | by intros [_ ?]]|].
      split; [done|]. split; [done|]. split; [done|].
      split; [|done]. split; [done | eauto].
    + split; [done|]. split; [done|]. split; [done|]. split; [done|].
      split; [|done]. split; [by intros [? ?]|].
      intros [_ H]. by specialize (H eq_refl).
  - rewrite contrasts_eval by done.
    destruct (undefined_groups groups delim (readlines file)) as [|g gs] eqn:Hu;
      simpl.
    + split; [split; [done | by intros [? _]]|].
      split; [done|]. split; [done|]. split; [done|].
      split; [split; [done | eauto]|].
      intros ->. simpl. by rewrite app_nil_r.
    + split; [split; [done | by intros [? _]]|].
      split; [done|]. split; [done|]. split; [done|].
      split; [split; [by intros [? ?] | by intros [? _]]|].
      intros Hl. by rewrite Hl in Hu.
Qed.

Lemma contrasts_outcomes_witness :
  contrasts (tsv "contrasts.tsv" []) ["G1"; "G2"]%string default_delim []
  = (Returned [], []).
Proof.
  apply (contrasts_outcomes (tsv "contrasts.tsv" []) ["G1"; "G2"]%string
           default_delim []).
  reflexivity.
Defined.

Lemma contrasts_returned_none_undefined file groups delim s comparsions :
  (contrasts file groups delim s).1 = Returned comparsions →
  undefined_groups groups delim (readlines file) = [].
Proof.
  intros Hret. destruct (decide (delim = EmptyString)) as [->|Hd].
  - apply undefined_groups_empty_delim.
  - rewrite contrasts_eval in Hret by done.
    by destruct (undefined_groups groups delim (readlines file)).
Qed.

(** X10. Every comparison [contrasts] returns is a pair of two non-empty
    names, both of them known groups. *)
Theorem contrasts_returns_known_pairs (file : File) (groups : list string)
    (delim : string) (s : stderr) (comparsions : list (list string)) :
  (contrasts file groups delim s).1 = Returned comparsions →
  ∀ p, p ∈ comparsions →
    ∃ g1 g2, p = [g1; g2]
      ∧ g1 ≠ EmptyString ∧ g2 ≠ EmptyString
      ∧ g1 ∈ groups ∧ g2 ∈ groups.
Proof.
  intros Hret p Hp.
  assert (undefined_groups groups delim (readlines file) = []) as Hnone.
  { by apply (contrasts_returned_none_undefined file groups delim s comparsions). }
  rewrite (contrasts_returned _ _ _ _ _ Hret) in Hp.
  apply (proj1 (elem_of_first_occurrences _ _)) in Hp.
  unfold contrasts_pairs in Hp.
  apply list_elem_of_omap in Hp as (line & Hline & Hpair).
  destruct (contrasts_pair_length _ _ _ Hpair) as (g1 & g2 & -> & Hg1 & Hg2).
  exists g1, g2. split; [done|]. split; [done|]. split; [done|].
  assert (∀ g, g ∈ [g1; g2] → g ∈ groups) as Hknown.
  { intros g Hg. destruct (decide (g ∈ groups)) as [|Hn]; [done|].
    assert (g ∈ undefined_groups groups delim (readlines file)) as Hin.
    { apply elem_of_undefined_groups. split; [done|]. by exists line, [g1; g2]. }
    rewrite Hnone in Hin. by apply elem_of_nil in Hin. }
  split; apply Hknown; [by left | by right; left].
Qed.

Lemma contrasts_returns_known_pairs_witness :
  ∃ g1 g2, ["G2"; "G1"]%string = [g1; g2]
    ∧ g1 ≠ EmptyString ∧ g2 ≠ EmptyString
    ∧ g1 ∈ ["G1"; "G2"]%string ∧ g2 ∈ ["G1"; "G2"]%string.
Proof.
  apply (contrasts_returns_known_pairs
           (tsv "contrasts.tsv" [["G2"; "G1"]; ["G1"; "G2"]]%string)
           ["G1"; "G2"]%string default_delim []
           [["G2"; "G1"]; ["G1"; "G2"]]%string).
  - reflexivity.
  - by left.
Defined.

(** X11. The known groups are used as a set: two lists with the same
    members, in any order and with any repetition, give the same outcome
    and the same diagnostics. *)
Theorem contrasts_known_groups_as_set (file : File) (groups1 groups2 : list string)
    (delim : string) (s : stderr) :
  (∀ g, g ∈ groups1 ↔ g ∈ groups2) →
  contrasts file groups1 delim s = contrasts file groups2 delim s.
Proof.
  intros Hsame. destruct (decide (delim = EmptyString)) as [->|Hd].
  - by rewrite !contrasts_empty_delim.
  - rewrite !contrasts_eval by done.
    assert (undefined_groups groups1 delim (readlines file)
            = undefined_groups groups2 delim (readlines file)) as ->; [|done].
    unfold undefined_groups. apply list_filter_iff. intros g. by rewrite Hsame.
Qed.

Lemma contrasts_known_groups_as_set_witness :
  let file := tsv "contrasts.tsv" [["G2"; "G1"]; ["G3"; "G1"]]%string in
  contrasts file ["G1"; "G2"]%string default_delim []
  = contrasts file ["G2"; "G1"; "G2"]%string default_delim [].
Proof.
  intros file. apply contrasts_known_groups_as_set.
  intros g. rewrite !elem_of_cons. pose proof (elem_of_nil g). tauto.
Defined.

Lemma contrasts_warnings_numbered file delim lines line_number :
  contrasts_warnings file delim lines line_number
  = numbered_warnings (contrasts_row_warnings file delim) lines line_number.
Proof.
  revert line_number. induction lines as [|line lines IH]; intros line_number.
  - reflexivity.
  - cbn [contrasts_warnings]. by rewrite numbered_warnings_cons, IH.
Qed.

(** A row has its first two cells exactly when it has two cells. *)
Lemma getitem_first_two {A} (l : list A) :
  match Py.getitem l 0, Py.getitem l 1 with
  | Some _, Some _ => (2 ≤ length l)%nat
  | _, _ => (length l < 2)%nat
  end.
Proof. destruct l as [|a [|b l]]; simpl; lia. Qed.

Lemma contrasts_row_warnings_cells file delim line_number line cells :
  Py.split line delim = Some cells →
  contrasts_row_warnings file delim line_number line
  = if decide (length cells < 2)%nat
    then [MissingGroupWarning (path file) line_number (Py.strip line);
          SkippingLineNote]
    else [].
Proof.
  intros Hs. unfold contrasts_row_warnings. rewrite Hs.
  pose proof (getitem_first_two
                (map (λ l, clean (Py.strip l) default_remove) cells)) as H.
  rewrite length_map in H. cbn zeta.
  destruct (Py.getitem _ 0); [destruct (Py.getitem _ 1)|];
    case_decide; done || lia.
Qed.

(** X12. [contrasts] warns exactly about the lines with fewer than two
    cells, blank lines included, and numbers each warning with the line's
    number in the file: the line at position [k] (from 0) is reported as
    line [k + 1], with the stripped text of the line.  Lines with two
    cells or more are never reported, even when a name is empty. *)
Theorem contrasts_warnings_carry_file_line_numbers (file : File)
    (groups : list string) (delim : string) (s : stderr) :
  delim ≠ EmptyString →
  (∀ (k : nat) line cells,
     readlines file !! k = Some line → Py.split line delim = Some cells →
     (length cells < 2)%nat →
     MissingGroupWarning (path file) (Z.of_nat k + 1) (Py.strip line)
       ∈ (contrasts file groups delim s).2)
  ∧ (∀ f n l,
       MissingGroupWarning f n l ∈ (contrasts file groups delim s).2 →
       MissingGroupWarning f n l ∈ s
       ∨ ∃ (k : nat) line cells,
           readlines file !! k = Some line ∧ Py.split line delim = Some cells
           ∧ (length cells < 2)%nat
           ∧ f = path file ∧ n = Z.of_nat k + 1 ∧ l = Py.strip line).
Proof.
  intros Hd.
  assert (∃ final,
    (contrasts file groups delim s).2
    = s ++ numbered_warnings (contrasts_row_warnings file delim) (readlines file) 0
        ++ final
    ∧ ∀ f n l, MissingGroupWarning f n l ∉ final) as (final & Hlog & Hfinal).
  { rewrite contrasts_eval, contrasts_warnings_numbered by done.
    destruct (undefined_groups groups delim (readlines file)) as [|g gs]; simpl.
    - exists []. rewrite app_nil_r. split; [done|]. intros f n l.
      apply not_elem_of_nil.
    - eexists. split; [done|]. intros f n l.
      rewrite !not_elem_of_cons. repeat split; try done. apply not_elem_of_nil. }
  split.
  - intros k line cells Hk Hs Hlen. rewrite Hlog, !elem_of_app. right. left.
    apply (numbered_warnings_lookup _ _ _ k line); [done|].
    rewrite (contrasts_row_warnings_cells _ _ _ _ cells Hs).
    rewrite decide_True by done. replace (0 + Z.of_nat k + 1) with (Z.of_nat k + 1) by lia.
    by left.
  - intros f n l. rewrite Hlog, !elem_of_app.
    intros [Hs|[Hw|Hf]]; [by left | | by apply Hfinal in Hf].
    right. apply elem_of_numbered_warnings in Hw as (k & line & Hk & Hmsg).
    destruct (proj1 (split_is_Some line delim) Hd) as [cells Hs].
    rewrite (contrasts_row_warnings_cells _ _ _ _ cells Hs) in Hmsg.
    case_decide as Hlen; [|by apply elem_of_nil in Hmsg].
    apply elem_of_cons in Hmsg as [[= -> -> ->]|Hmsg].
    + exists k, line, cells. repeat split; try done; lia.
    + apply elem_of_cons in Hmsg as [?|Hmsg]; [done | by apply elem_of_nil in Hmsg].
Qed.

Lemma contrasts_warnings_carry_file_line_numbers_witness :
  let file := tsv "contrasts.tsv" [["G2"; "G1"]; []; ["G1"]]%string in
  MissingGroupWarning "contrasts.tsv" 2 EmptyString
    ∈ (contrasts file ["G1"; "G2"]%string default_delim []).2.
Proof.
  intros file.
  destruct (contrasts_warnings_carry_file_line_numbers file
              ["G1"; "G2"]%string default_delim []) as [Hline _].
  - discriminate.
  - apply (Hline 1%nat (Py.str Py.LF) [Py.str Py.LF]).
    + reflexivity.
    + reflexivity.
    + simpl. lia.
Defined.

(** ** Blank lines *)

Lemma split_blank_line delim :
  delim ≠ EmptyString → delim ≠ Py.str Py.LF →
  Py.split (Py.str Py.LF) delim = Some [Py.str Py.LF].
Proof.
  intros Hd Hlf. rewrite split_nonempty_sep by done. f_equal.
  destruct delim as [|d ds]; [done|].
  unfold Py.str. cbn [Py.split_go String.prefix].
  destruct (ascii_dec d Py.LF) as [->|Hne]; [|done].
  destruct ds as [|d2 ds]; [done|]. reflexivity.
Qed.

Lemma groups_input_columns file si gi rows :
  groups_input file = Some (si, gi, rows) → 0 ≤ si ∧ 0 ≤ gi ∧ si ≠ gi.
Proof.
  intros (line & rest & header & _ & _ & Hcase)%groups_input_cases.
  destruct Hcase as [(Hs & Hg & _)|(_ & -> & -> & _)]; [|lia].
  apply list_index_Some in Hs as [Hs0 Hs], Hg as [Hg0 Hg].
  split; [done|]. split; [done|]. intros ->. congruence.
Qed.

(** X13. A blank line among the data lines of a group table is skipped
    silently: the loop goes on with the next line, the mapping and the
    error stream unchanged. *)
Theorem groups_blank_line_is_silent (file : File) (delim : string)
    (si gi : Z) (rows : list string) :
  delim ≠ EmptyString → delim ≠ Py.str Py.LF →
  groups_input file = Some (si, gi, rows) →
  ∀ rest lineno acc s,
    groups_loop delim si gi (Py.str Py.LF :: rest) lineno acc s
    = groups_loop delim si gi rest (lineno + 1) acc s.
Proof.
  intros Hd Hlf Hin rest lineno acc s.
  destruct (groups_input_columns _ _ _ _ Hin) as (Hsi & Hgi & Hne).
  cbn [groups_loop]. rewrite bind_unfold. unfold groups_row.
  rewrite split_blank_line by done.
  change (map Py.strip [Py.str Py.LF]) with [EmptyString].
  rewrite !getitem_nonneg by done.
  destruct (Z.to_nat si) as [|n] eqn:Hn, (Z.to_nat gi) as [|m] eqn:Hm;
    [lia| | |]; by run_M.
Qed.

Lemma groups_blank_line_is_silent_witness :
  let file := tsv "groups.tsv"
                [["Sample"; "Group"]; ["S1"; "G1"]; []; ["S2"; "G1"]]%string in
  let row := (Py.join default_delim ["S2"; "G1"] +:+ Py.str Py.LF)%string in
  let acc : gmap string (list string) := <["G1"%string := ["S1"%string]]> ∅ in
  groups_loop default_delim 0 1 [Py.str Py.LF; row] 2 acc []
  = groups_loop default_delim 0 1 [row] (2 + 1) acc [].
Proof.
  intros file row acc.
  apply (groups_blank_line_is_silent file default_delim 0 1
           (tail (readlines file))).
  - discriminate.
  - discriminate.
  - reflexivity.
Defined.

Lemma groups_outcomes_witness :
  (groups (tsv "groups.tsv" []) default_delim []).1 = Raised SystemExit.
Proof.
  apply (groups_outcomes (tsv "groups.tsv" []) default_delim []). reflexivity.
Defined.

Lemma clean_result_ends_witness :
  Py.char_in "a" (Py.str Py.SQUOTE) = false.
Proof.
  apply (proj1 (clean_result_ends ("'a'")%string [Py.str Py.DQUOTE]
                  (Py.str Py.SQUOTE)) "a"%char EmptyString).
  reflexivity.
Defined.

(** ** Stripping a wrapped string *)

Lemma lstrip_by_app_all p (pre t : string) :
  str_forall p pre = true → Py.lstrip_by p (pre +:+ t) = Py.lstrip_by p t.
Proof.
  induction pre as [|c pre IH]; [done|]. rewrite str_app_cons. simpl.
  intros [Hc Hpre]%andb_true_iff. rewrite Hc. by apply IH.
Qed.

Lemma lstrip_by_clear p (s : string) :
  starts_clear p s = true → Py.lstrip_by p s = s.
Proof. destruct s as [|c s]; [done|]. simpl. by destruct (p c). Qed.

Lemma rstrip_by_all p (s : string) :
  str_forall p s = true → Py.rstrip_by p s = EmptyString.
Proof.
  induction s as [|c s IH]; [done|]. simpl.
  intros [Hc Hs]%andb_true_iff. by rewrite (IH Hs), Hc.
Qed.

Lemma rstrip_by_app_all p (t post : string) :
  str_forall p post = true → Py.rstrip_by p (t +:+ post) = Py.rstrip_by p t.
Proof.
  intros Hpost. induction t as [|c t IH].
  - rewrite str_app_nil_l. by apply rstrip_by_all.
  - rewrite str_app_cons. cbn [Py.rstrip_by]. by rewrite IH.
Qed.

Lemma rstrip_by_clear p (s : string) :
  ends_clear p s = true → Py.rstrip_by p s = s.
Proof.
  induction s as [|c s IH]; [done|]. destruct s as [|d s].
  - simpl. by destruct (p c).
  - intros H. change (ends_clear p (String d s) = true) in H.
    cbn [Py.rstrip_by] in *. by rewrite (IH H).
Qed.

Lemma starts_clear_app_pre p (pre s : string) :
  str_forall (λ c, negb (p c)) pre = true → starts_clear p s = true →
  starts_clear p (pre +:+ s) = true.
Proof.
  destruct pre as [|c pre]; [done|]. rewrite str_app_cons. simpl.
  by intros [? _]%andb_true_iff.
Qed.

Lemma starts_clear_app_r p (s post : string) :
  starts_clear p s = true → starts_clear p (s +:+ post) = true.
Proof. by destruct s. Qed.

Lemma ends_clear_cons p c (s : string) :
  ends_clear p s = true → ends_clear p (String c s) = true.
Proof. by destruct s. Qed.

Lemma ends_clear_app_l p (pre s : string) :
  ends_clear p s = true → ends_clear p (pre +:+ s) = true.
Proof.
  intros Hs. induction pre as [|c pre IH]; [done|].
  rewrite str_app_cons. by apply ends_clear_cons.
Qed.

Lemma ends_clear_all p c (s : string) :
  str_forall (λ c, negb (p c)) (String c s) = true →
  ends_clear p (String c s) = true.
Proof.
  revert c. induction s as [|d s IH]; intros c; simpl.
  - by rewrite andb_true_r.
  - intros [_ Hs]%andb_true_iff. by apply (IH d).
Qed.

Lemma ends_clear_app_post p (s post : string) :
  str_forall (λ c, negb (p c)) post = true → ends_clear p s = true →
  ends_clear p (s +:+ post) = true.
Proof.
  intros Hpost. induction s as [|c s IH]; [done|]. destruct s as [|d s].
  - intros Hc. rewrite str_app_cons, str_app_nil_l.
    destruct post as [|e post]; [done|].
    apply ends_clear_cons. by apply ends_clear_all.
  - intros H. change (ends_clear p (String d s) = true) in H.
    rewrite str_app_cons. apply ends_clear_cons. by apply IH.
Qed.

Lemma starts_clear_mono (p q : ascii → bool) (s : string) :
  (∀ c, p c = true → q c = true) →
  starts_clear q s = true → starts_clear p s = true.
Proof.
  intros Hpq. destruct s as [|c s]; [done|]. simpl.
  destruct (p c) eqn:Hc; [|done]. by rewrite (Hpq c Hc).
Qed.

Lemma ends_clear_mono (p q : ascii → bool) (s : string) :
  (∀ c, p c = true → q c = true) →
  ends_clear q s = true → ends_clear p s = true.
Proof.
  intros Hpq. induction s as [|c s IH]; [done|]. destruct s as [|d s].
  - simpl. destruct (p c) eqn:Hc; [|done]. by rewrite (Hpq c Hc).
  - intros H. change (ends_clear q (String d s) = true) in H.
    apply ends_clear_cons. by apply IH.
Qed.

(** Stripping by [p] takes a wrapping of [p]-characters off a string that
    neither begins nor ends with one. *)
Lemma strip_by_wrapped p (pre s post : string) :
  str_forall p pre = true → str_forall p post = true →
  starts_clear p s = true → ends_clear p s = true →
  Py.rstrip_by p (Py.lstrip_by p (pre +:+ s +:+ post)) = s.
Proof.
  intros Hpre Hpost Hstart Hend.
  rewrite lstrip_by_app_all by done.
  rewrite lstrip_by_clear by (by apply starts_clear_app_r).
  rewrite rstrip_by_app_all by done. by apply rstrip_by_clear.
Qed.

(** A token written as white space, double quotes, single quotes, a core
    that neither begins nor ends with white space or a quote, and then
    single quotes, double quotes and white space again (each run possibly
    empty) is cleaned to its core by [clean(token.strip())]. *)
Lemma strip_and_unquote_nested (ws1 dqs sqs core sqs' dqs' ws2 : string) :
  str_forall Py.isspace ws1 = true → str_forall Py.isspace ws2 = true →
  str_forall (λ c, Ascii.eqb c Py.DQUOTE) dqs = true →
  str_forall (λ c, Ascii.eqb c Py.DQUOTE) dqs' = true →
  str_forall (λ c, Ascii.eqb c Py.SQUOTE) sqs = true →
  str_forall (λ c, Ascii.eqb c Py.SQUOTE) sqs' = true →
  starts_clear is_space_or_quote core = true →
  ends_clear is_space_or_quote core = true →
  Py.strip_chars
    (Py.strip_chars
       (Py.strip (ws1 +:+ dqs +:+ sqs +:+ core +:+ sqs' +:+ dqs' +:+ ws2))
       (Py.str Py.DQUOTE))
    (Py.str Py.SQUOTE) = core.
Proof.
  intros Hws1 Hws2 Hdq Hdq' Hsq Hsq' Hstart Hend.
  set (p_dq := λ c, Py.char_in c (Py.str Py.DQUOTE)).
  set (p_sq := λ c, Py.char_in c (Py.str Py.SQUOTE)).
  assert (∀ c, Ascii.eqb c Py.DQUOTE = true → p_dq c = true) as Hdq_in.
  { intros c Hc. unfold p_dq. simpl. by rewrite Hc. }
  assert (∀ c, Ascii.eqb c Py.SQUOTE = true → p_sq c = true) as Hsq_in.
  { intros c Hc. unfold p_sq. simpl. by rewrite Hc. }
  assert (∀ c, Ascii.eqb c Py.DQUOTE = true → negb (Py.isspace c) = true) as Hdq_ws.
  { by intros c ->%Ascii.eqb_eq. }
  assert (∀ c, Ascii.eqb c Py.SQUOTE = true → negb (Py.isspace c) = true) as Hsq_ws.
  { by intros c ->%Ascii.eqb_eq. }
  assert (∀ c, Ascii.eqb c Py.SQUOTE = true → negb (p_dq c) = true) as Hsq_dq.
  { by intros c ->%Ascii.eqb_eq. }
  assert (∀ c, Py.isspace c = true → is_space_or_quote c = true) as Hws_any.
  { intros c Hc. unfold is_space_or_quote. by rewrite Hc. }
  assert (∀ c, p_dq c = true → is_space_or_quote c = true) as Hdq_any.
  { intros c Hc. unfold is_space_or_quote, p_dq in *. simpl in Hc.
    destruct (Ascii.eqb c Py.DQUOTE); [|done]. by rewrite orb_true_r. }
  assert (∀ c, p_sq c = true → is_space_or_quote c = true) as Hsq_any.
  { intros c Hc. unfold is_space_or_quote, p_sq in *. simpl in Hc.
    destruct (Ascii.eqb c Py.SQUOTE); [|done]. by rewrite !orb_true_r. }
  (* white space *)
  replace (ws1 +:+ dqs +:+ sqs +:+ core +:+ sqs' +:+ dqs' +:+ ws2)
    with (ws1 +:+ (dqs +:+ sqs +:+ core +:+ sqs' +:+ dqs') +:+ ws2)
    by (by rewrite !str_app_assoc).
  unfold Py.strip. rewrite strip_by_wrapped; [|done|done| |].
  2: { apply starts_clear_app_pre; [exact (str_forall_impl _ _ _ Hdq_ws Hdq)|].
       apply starts_clear_app_pre; [exact (str_forall_impl _ _ _ Hsq_ws Hsq)|].
       apply starts_clear_app_r. exact (starts_clear_mono _ _ _ Hws_any Hstart). }
  2: { do 2 apply ends_clear_app_l. apply ends_clear_app_post.
       - rewrite str_forall_app. apply andb_true_iff. split.
         + exact (str_forall_impl _ _ _ Hsq_ws Hsq').
         + exact (str_forall_impl _ _ _ Hdq_ws Hdq').
       - exact (ends_clear_mono _ _ _ Hws_any Hend). }
  (* double quotes *)
  replace (dqs +:+ sqs +:+ core +:+ sqs' +:+ dqs')
    with (dqs +:+ (sqs +:+ core +:+ sqs') +:+ dqs')
    by (by rewrite !str_app_assoc).
  unfold Py.strip_chars at 2. fold p_dq. rewrite strip_by_wrapped.
  2: exact (str_forall_impl _ _ _ Hdq_in Hdq).
  2: exact (str_forall_impl _ _ _ Hdq_in Hdq').
  2: { apply starts_clear_app_pre; [exact (str_forall_impl _ _ _ Hsq_dq Hsq)|].
       apply starts_clear_app_r. exact (starts_clear_mono _ _ _ Hdq_any Hstart). }
  2: { apply ends_clear_app_l. apply ends_clear_app_post.
       - exact (str_forall_impl _ _ _ Hsq_dq Hsq').
       - exact (ends_clear_mono _ _ _ Hdq_any Hend). }
  (* single quotes *)
  unfold Py.strip_chars. fold p_sq. apply strip_by_wrapped.
  - exact (str_forall_impl _ _ _ Hsq_in Hsq).
  - exact (str_forall_impl _ _ _ Hsq_in Hsq').
  - exact (starts_clear_mono _ _ _ Hsq_any Hstart).
  - exact (ends_clear_mono _ _ _ Hsq_any Hend).
Qed.

(** [re.split(';|,', s)] cuts [s] at every separator and nowhere else:
    written one after the other with the separators between them, the
    tokens give [s] back. *)
Lemma re_split_join (s : string) :
  ∃ seps,
    Forall (λ c, is_separator c = true) seps
    ∧ length (Py.re_split_semicolon_comma s) = S (length seps)
    ∧ join_with (Py.re_split_semicolon_comma s) seps = s.
Proof.
  induction s as [|c s (seps & Hseps & Hlen & Hjoin)].
  - by exists [].
  - cbn [Py.re_split_semicolon_comma]. fold (is_separator c).
    destruct (is_separator c) eqn:Hc.
    + exists (c :: seps). split; [by constructor|]. split; [simpl; lia|].
      cbn [join_with]. by rewrite str_app_nil_l, Hjoin.
    + destruct (Py.re_split_semicolon_comma s) as [|cell cells]; [done|].
      exists seps. split; [done|]. split; [done|].
      cbn [join_with] in *. destruct seps as [|d seps].
      * by rewrite Hjoin.
      * by rewrite str_app_cons, Hjoin.
Qed.

(** ** Group tokens and their keys *)

Lemma removable_default c :
  removable default_remove c = true → is_space_or_quote c = true.
Proof.
  unfold removable, default_remove, is_space_or_quote. simpl.
  destruct (Ascii.eqb c Py.DQUOTE), (Ascii.eqb c Py.SQUOTE);
    rewrite ?orb_true_r; done.
Qed.

(** The claim C5 as the specification words it fails: a group token
    written with double quotes inside single quotes is not listed under
    the token cleaned of its surrounding quotes; the double quotes stay in
    the key. *)
Lemma groups_key_keeps_inner_quotes :
  let quoted := String Py.DQUOTE ("GrpA" +:+ Py.str Py.DQUOTE) in
  let cell := String Py.SQUOTE (quoted +:+ Py.str Py.SQUOTE) in
  let file := tsv "groups.tsv" [["Sample"; "Group"]%string; ["S1"%string; cell]] in
  let m : gmap string (list string) := <[quoted := ["S1"%string]]> ∅ in
  Py.re_split_semicolon_comma cell = [cell]
  ∧ cleaned_of_whitespace_and_quotes cell = "GrpA"%string
  ∧ groups file default_delim [] = (Returned m, [])
  ∧ m !! cleaned_of_whitespace_and_quotes cell = None
  ∧ m !! quoted = Some ["S1"%string].
Proof.
  intros quoted cell file m.
  split; [reflexivity|]. split; [reflexivity|].
  split; [vm_compute; reflexivity|].
  split; [vm_compute; reflexivity|]. vm_compute. reflexivity.
Qed.

(** C5 (amended). For every accepted data row, [groups] cuts the group
    cell at every comma and semicolon and nowhere else, strips each token
    of surrounding white space, then of surrounding double quotes, then of
    surrounding single quotes, once each and in that order, and lists the
    row's sample under every key so obtained.  Only white space and quotes
    are taken off a token and the key never begins or ends with a single
    quote; a token wrapped in white space, double quotes and single
    quotes, in that nesting, is cleaned to its core.  With group cell
    [GrpA,GrpAB], or [GrpA;GrpAB], the sample is listed under both [GrpA]
    and [GrpAB]. *)
Theorem groups_lists_sample_under_every_token (file : File) (delim : string)
    (s : stderr) (m : gmap string (list string)) (si gi : Z)
    (rows : list string) (line : string) (cells : list string)
    (cell group : string) :
  let unquote := λ t : string,
    Py.strip_chars (Py.strip_chars t (Py.str Py.DQUOTE)) (Py.str Py.SQUOTE) in
  (groups file delim s).1 = Returned m →
  groups_input file = Some (si, gi, rows) →
  line ∈ rows →
  Py.split line delim = Some cells →
  Py.getitem (map Py.strip cells) si = Some cell →
  Py.getitem (map Py.strip cells) gi = Some group →
  unquote cell ≠ EmptyString →
  group ≠ EmptyString →
  let sample := unquote cell in
  let tokens := Py.re_split_semicolon_comma group in
  (∃ seps, Forall (λ c, is_separator c = true) seps
           ∧ length tokens = S (length seps)
           ∧ join_with tokens seps = group)
  ∧ (∀ token, token ∈ tokens →
       str_forall (λ c, negb (is_separator c)) token = true)
  ∧ (∀ token, token ∈ tokens →
       let key := unquote (Py.strip token) in
       (∃ samples, m !! key = Some samples ∧ sample ∈ samples)
       ∧ (∃ pre post, token = pre +:+ key +:+ post
            ∧ str_forall is_space_or_quote pre = true
            ∧ str_forall is_space_or_quote post = true)
       ∧ (∀ r, key ≠ String Py.SQUOTE r)
       ∧ (∀ r, key ≠ r +:+ Py.str Py.SQUOTE))
  ∧ (∀ ws1 dqs sqs core sqs' dqs' ws2,
       (ws1 +:+ dqs +:+ sqs +:+ core +:+ sqs' +:+ dqs' +:+ ws2) ∈ tokens →
       str_forall Py.isspace ws1 = true → str_forall Py.isspace ws2 = true →
       str_forall (λ c, Ascii.eqb c Py.DQUOTE) dqs = true →
       str_forall (λ c, Ascii.eqb c Py.DQUOTE) dqs' = true →
       str_forall (λ c, Ascii.eqb c Py.SQUOTE) sqs = true →
       str_forall (λ c, Ascii.eqb c Py.SQUOTE) sqs' = true →
       starts_clear is_space_or_quote core = true →
       ends_clear is_space_or_quote core = true →
       ∃ samples, m !! core = Some samples ∧ sample ∈ samples)
  ∧ (group = "GrpA,GrpAB"%string ∨ group = "GrpA;GrpAB"%string →
     ∃ samplesA samplesAB,
       m !! "GrpA"%string = Some samplesA ∧ sample ∈ samplesA
       ∧ m !! "GrpAB"%string = Some samplesAB ∧ sample ∈ samplesAB).
Proof.
  intros unquote Hret Hin Hline Hs Hc Hg Hsample Hgroup sample tokens.
  destruct (groups_result _ _ _ _ Hret) as (si' & gi' & rows' & Hin' & ->).
  rewrite Hin in Hin'. injection Hin' as <- <- <-.
  assert ((sample, multiple_groups group)
            ∈ omap (groups_entry delim si gi) rows) as Hentry.
  { apply list_elem_of_omap. exists line. split; [done|].
    by apply (groups_entry_accepted _ _ _ _ cells). }
  assert (∀ token, token ∈ tokens →
     ∃ samples,
       foldl apply_entry ∅ (omap (groups_entry delim si gi) rows)
         !! unquote (Py.strip token) = Some samples
       ∧ sample ∈ samples) as Hkey.
  { intros token Htoken.
    apply (foldl_apply_entry_member _ _ (multiple_groups group)); [done|].
    unfold multiple_groups.
    apply (list_elem_of_fmap_2 (λ g, clean (Py.strip g) default_remove)), Htoken. }
  split; [apply re_split_join|].
  split; [intros token; apply re_split_no_separator|].
  split; [|split].
  - intros token Htoken key. split; [by apply Hkey|]. split; [|split].
    + destruct (strip_split token) as (pre1 & post1 & Ht & Hpre1 & Hpost1).
      destruct (clean_split (Py.strip token) default_remove)
        as (pre2 & post2 & Hk & Hpre2 & Hpost2).
      change (clean (Py.strip token) default_remove) with key in Hk.
      assert (∀ c, Py.isspace c = true → is_space_or_quote c = true) as Hws.
      { intros c Hc'. unfold is_space_or_quote. by rewrite Hc'. }
      exists (pre1 +:+ pre2), (post2 +:+ post1). split; [|split].
      * rewrite Ht at 1. rewrite Hk at 1. by rewrite !str_app_assoc.
      * rewrite str_forall_app. apply andb_true_iff. split.
        -- exact (str_forall_impl _ _ _ Hws Hpre1).
        -- exact (str_forall_impl _ _ _ removable_default Hpre2).
      * rewrite str_forall_app. apply andb_true_iff. split.
        -- exact (str_forall_impl _ _ _ removable_default Hpost2).
        -- exact (str_forall_impl _ _ _ Hws Hpost1).
    + intros r H. unfold key, unquote, Py.strip_chars at 1 in H.
      destruct (rstrip_by_head _ _ _ _ H) as [s' Hs'].
      by apply lstrip_by_head in Hs'.
    + intros r H. unfold key, unquote, Py.strip_chars at 1 in H.
      by apply rstrip_by_last in H.
  - intros ws1 dqs sqs core sqs' dqs' ws2 Htoken Hws1 Hws2 Hdq Hdq' Hsq Hsq'
      Hstart Hend.
    destruct (Hkey _ Htoken) as (samples & Hm & Hsamples).
    unfold unquote in Hm. rewrite strip_and_unquote_nested in Hm by done. eauto.
  - intros [-> | ->].
    + destruct (Hkey "GrpA"%string) as (samplesA & HA & HinA); [by_compute|].
      destruct (Hkey "GrpAB"%string) as (samplesAB & HAB & HinAB); [by_compute|].
      by exists samplesA, samplesAB.
    + destruct (Hkey "GrpA"%string) as (samplesA & HA & HinA); [by_compute|].
      destruct (Hkey "GrpAB"%string) as (samplesAB & HAB & HinAB); [by_compute|].
      by exists samplesA, samplesAB.
Qed.

Lemma groups_lists_sample_under_every_token_witness :
  let dq := Py.str Py.DQUOTE in
  let sq := Py.str Py.SQUOTE in
  let group := (dq +:+ "GrpA" +:+ dq +:+ " ; " +:+ sq +:+ "GrpAB" +:+ sq)%string in
  let file := tsv "groups.tsv" [["Sample"; "Group"]%string; ["S1"%string; group]] in
  let m : gmap string (list string) :=
    <["GrpAB"%string := ["S1"%string]]> (<["GrpA"%string := ["S1"%string]]> ∅) in
  (groups file default_delim []).1 = Returned m
  ∧ (∃ samples, m !! "GrpA"%string = Some samples ∧ "S1"%string ∈ samples)
  ∧ (∃ samples, m !! "GrpAB"%string = Some samples ∧ "S1"%string ∈ samples).
Proof.
  intros dq sq group file m.
  assert ((groups file default_delim []).1 = Returned m) as Hret.
  { vm_compute. reflexivity. }
  split; [exact Hret|].
  destruct (groups_lists_sample_under_every_token file default_delim [] m 0 1
              (tail (readlines file))
              (Py.join default_delim ["S1"%string; group] +:+ Py.str Py.LF)%string
              ["S1"%string; (group +:+ Py.str Py.LF)%string]
              "S1"%string group)
    as (_ & _ & _ & Hnested & _).
  - exact Hret.
  - reflexivity.
  - by left.
  - reflexivity.
  - reflexivity.
  - reflexivity.
  - discriminate.
  - discriminate.
  - split.
    + apply (Hnested EmptyString dq EmptyString "GrpA"%string
               EmptyString dq " "%string); try reflexivity.
      by_compute.
    + apply (Hnested " "%string EmptyString sq "GrpAB"%string
               sq EmptyString EmptyString); try reflexivity.
      by_compute.
Defined.
